(** * SkillSync: the matching and recommendation pipeline of [main.py]

    A shallow embedding of the functions of [main.py] (and of the request
    handling around them in [job_matcher/views.py]) together with the
    properties stated about them.

    Python strings are modelled as [string] over ASCII; what the program
    obtains from outside (the spaCy model, the course catalogue, the job
    API, the iteration order of a Python [set]) enters as a parameter. *)

From Stdlib Require Import ZArith List Ascii String Reals Lra Lia Permutation Sorted.
From Stdlib Require Import SpecFloat.
From stdpp Require Import gmap strings list sorting.

Import ListNotations.
Local Open Scope string_scope.

(** ** Python values, exceptions and string primitives *)

Module Py.

(** Exceptions the modelled code can meet. *)
Inductive exn : Type :=
| ValueError
| TypeError
| RequestException
| AttributeError
| OverflowError
| OtherError.

(** A computation that returns or raises. *)
Inductive result (A : Type) : Type :=
| Ok (a : A)
| Raise (e : exn).
Arguments Ok {A} a.
Arguments Raise {A} e.

Definition bind {A B} (m : result A) (k : A -> result B) : result B :=
  match m with
  | Ok a => k a
  | Raise e => Raise e
  end.

(** The values a JSON body or a query dictionary can carry. A JSON number
    with a fraction or an exponent is a float, given by sign, mantissa and
    exponent, or a zero, an infinity (as [1e999] is read) or nan. A JSON
    array or object is [PyOther], of which only emptiness matters here. *)
Inductive pyval : Type :=
| PyNone
| PyBool (b : bool)
| PyInt (z : Z)
| PyFloat (f : spec_float)
| PyStr (s : string)
| PyOther (nonempty : bool).

(** Truth value of [if v:]. *)
Definition truthy (v : pyval) : bool :=
  match v with
  | PyNone => false
  | PyBool b => b
  | PyInt z => negb (z =? 0)%Z
  | PyFloat (S754_zero _) => false
  | PyFloat _ => true
  | PyStr s => negb (String.eqb s "")
  | PyOther nonempty => nonempty
  end.

(** [isinstance(v, int)]; [bool] is a subclass of [int]. *)
Definition is_int (v : pyval) : bool :=
  match v with
  | PyBool _ | PyInt _ => true
  | _ => false
  end.

(** [str.isspace] on one ASCII character: TAB..CR, FS..US and space. *)
Definition is_space (c : ascii) : bool :=
  let n := nat_of_ascii c in
  (((9 <=? n) && (n <=? 13)) || ((28 <=? n) && (n <=? 32)))%nat.

Definition is_upper (c : ascii) : bool :=
  let n := nat_of_ascii c in ((65 <=? n) && (n <=? 90))%nat.

Definition is_digit (c : ascii) : bool :=
  let n := nat_of_ascii c in ((48 <=? n) && (n <=? 57))%nat.

Definition lower_char (c : ascii) : ascii :=
  if is_upper c then ascii_of_nat (nat_of_ascii c + 32) else c.

(** [s.lower()] *)
Fixpoint lower (s : string) : string :=
  match s with
  | EmptyString => EmptyString
  | String c s' => String (lower_char c) (lower s')
  end.

(** [s.lstrip()], [s.rstrip()], [s.strip()] *)
Fixpoint lstrip (s : string) : string :=
  match s with
  | EmptyString => EmptyString
  | String c s' => if is_space c then lstrip s' else s
  end.

Fixpoint rstrip (s : string) : string :=
  match s with
  | EmptyString => EmptyString
  | String c s' =>
      let r := rstrip s' in
      if is_space c && String.eqb r "" then EmptyString else String c r
  end.

Definition strip (s : string) : string := lstrip (rstrip s).

(** [sub in s] *)
Fixpoint contains (sub s : string) : bool :=
  String.prefix sub s ||
  match s with
  | EmptyString => false
  | String _ s' => contains sub s'
  end.

(** [s.split(sep)] for a non-empty separator: [skip] counts the
    characters of a matched separator still to be passed over, [cur] is
    the piece read so far. *)
Fixpoint split_go (sep : string) (skip : nat) (cur : string) (s : string)
  : list string :=
  match s with
  | EmptyString => [cur]
  | String c s' =>
      match skip with
      | S k => split_go sep k cur s'
      | O =>
          if String.prefix sep s
          then cur :: split_go sep (String.length sep - 1) "" s'
          else split_go sep 0 (cur ++ String c "") s'
      end
  end.

Definition split (sep s : string) : list string := split_go sep 0 "" s.

(** [sep.join(l)] *)
Definition join (sep : string) (l : list string) : string :=
  String.concat sep l.

(** [l[:k]] for an integer [k]: a negative bound counts from the end. *)
Definition slice_to {A} (l : list A) (k : Z) : list A :=
  if (0 <=? k)%Z then firstn (Z.to_nat k) l
  else firstn (length l - Z.to_nat (- k)) l.

(** [list(set(l))]: the elements of [l] without repetition, in the order
    the interpreter's hashing gives them. *)
Record hash_order : Type := HashOrder {
  list_set :> list string -> list string;
  list_set_perm : forall l, Permutation (list_set l) (remove_dups l)
}.

(** One such order: first occurrences, in the order of [l]. *)
Definition insertion_order : hash_order :=
  {| list_set := remove_dups; list_set_perm := fun l => Permutation_refl _ |}.

End Py.

Import Py.

(** ** Skill extraction: [COMMON_TECH_SKILLS], [extract_skills] *)

Module SkillExtractor.

Definition COMMON_TECH_SKILLS : list string :=
  [ "python"; "java"; "javascript"; "html"; "css"; "react"; "angular"; "vue";
    "node.js"; "express"; "django"; "flask"; "spring"; "hibernate"; "sql";
    "mysql"; "postgresql"; "mongodb"; "nosql"; "aws"; "azure"; "gcp";
    "docker"; "kubernetes"; "jenkins"; "git"; "github"; "gitlab"; "ci/cd";
    "agile"; "scrum"; "jira"; "confluence"; "rest api"; "graphql"; "microservices";
    "machine learning"; "artificial intelligence"; "data science"; "big data";
    "hadoop"; "spark"; "tensorflow"; "pytorch"; "keras"; "nlp"; "computer vision";
    "devops"; "sre"; "cloud computing"; "serverless"; "linux"; "unix"; "bash";
    "powershell"; "c#"; "c++"; "ruby"; "php"; "swift"; "kotlin"; "go"; "rust";
    "typescript"; "jquery"; "bootstrap"; "sass"; "less"; "webpack"; "babel";
    "redux"; "vuex"; "next.js"; "nuxt.js"; "gatsby"; "rest";
    "oauth"; "jwt"; "authentication"; "authorization"; "security"; "encryption";
    "testing"; "unit testing"; "integration testing"; "e2e testing"; "jest";
    "mocha"; "chai"; "selenium"; "cypress"; "puppeteer"; "responsive design";
    "mobile development"; "ios"; "android"; "react native"; "flutter"; "xamarin" ].

Definition DEFAULT_SKILLS : list string :=
  [ "python"; "javascript"; "html"; "css"; "sql" ].

(** A token as the consumers expect it: no upper-case letter, nothing to
    strip at either end. *)
Definition normalized (t : string) : Prop := lower t = t /\ strip t = t.

Definition normalizedb (t : string) : bool :=
  String.eqb (lower t) t && String.eqb (strip t) t.

Section Extract.

(** The module-level [nlp]: [None] when [spacy.load] failed; otherwise
    the texts of [nlp(text).ents], or the exception the call raised. *)
Variable nlp : option (string -> result (list string)).
Variable order : hash_order.

(** The vocabulary scan and its default. *)
Definition found_skills (text : string) : list string :=
  let text_lower := lower text in
  List.filter (fun skill => contains skill text_lower) COMMON_TECH_SKILLS.

Definition fallback_skills (text : string) : list string :=
  match found_skills text with
  | [] => DEFAULT_SKILLS
  | _ :: _ => found_skills text
  end.

(** What the model path returns, when it returns. *)
Definition model_skills (text : string) : option (list string) :=
  match nlp with
  | None => None
  | Some run =>
      match run text with
      | Raise _ => None
      | Ok ents =>
          match order (map lower ents) with
          | [] => None
          | skills => Some skills
          end
      end
  end.

(** The list that [extract_skills] joins. *)
Definition extract_skills_list (text : string) : list string :=
  match model_skills text with
  | Some skills => skills
  | None => fallback_skills text
  end.

Definition extract_skills (text : string) : string :=
  join ", " (extract_skills_list text).

End Extract.

(** A recogniser that reports one entity with the blanks around it. *)
Definition padded_ner (text : string) : result (list string) :=
  Ok [" Python "].

(** A recogniser that reports the two entities of one fixed sentence. *)
Definition demo_ner (text : string) : result (list string) :=
  if String.eqb text "Python and SQL" then Ok ["Python"; "SQL"] else Ok [].

End SkillExtractor.

(** ** Job ranking: [recommended_jobs]

    [TfidfVectorizer()] and [cosine_similarity] are scikit-learn's; they are
    modelled with their default settings, over the real numbers in place of
    64-bit floats:
    - a document is lower-cased and cut into the maximal runs of two or more
      word characters (token pattern [\b\w\w+\b]);
    - the vocabulary is the sorted set of all tokens; an empty vocabulary
      raises [ValueError];
    - the weight of a term in a document is [tf * (ln ((1+n)/(1+df)) + 1)]
      and each row is then divided by its Euclidean norm (a zero row is
      left as it is);
    - [cosine_similarity] refuses an operand with no row ([ValueError]),
      normalises the rows of both operands again and multiplies them.

    [DataFrame.sort_values] is called with pandas' default sort kind, which
    promises a reordering of the rows along the key and nothing about rows
    with equal keys; it is modelled as that relation. *)

Module Ranker.

Local Open Scope R_scope.

Definition is_word_char (c : ascii) : bool :=
  let n := nat_of_ascii c in
  (((48 <=? n) && (n <=? 57)) || ((65 <=? n) && (n <=? 90)) ||
   ((97 <=? n) && (n <=? 122)) || (n =? 95))%nat.

Definition emit (cur : string) : list string :=
  if (2 <=? String.length cur)%nat then [cur] else [].

Fixpoint tokens_go (cur : string) (s : string) : list string :=
  match s with
  | EmptyString => emit cur
  | String c s' =>
      if is_word_char c then tokens_go (cur ++ String c "") s'
      else emit cur ++ tokens_go "" s'
  end.

Definition tokenize (doc : string) : list string := tokens_go "" (lower doc).

Definition vocabulary (docs : list string) : list string :=
  merge_sort (fun a b => Is_true (String.leb a b))
             (remove_dups (concat (map tokenize docs))).

(** Term frequency in one document, document frequency in the corpus. *)
Definition tf (t : string) (doc : string) : nat :=
  count_occ string_dec (tokenize doc) t.

Definition df (t : string) (docs : list string) : nat :=
  length (List.filter (fun d => existsb (String.eqb t) (tokenize d)) docs).

Definition term_stats (docs : list string) (doc : string) : list (nat * nat) :=
  map (fun t => (tf t doc, df t docs)) (vocabulary docs).

Definition idf (n d : nat) : R := ln (INR (1 + n) / INR (1 + d)) + 1.

Definition tfidf_row (n : nat) (stats : list (nat * nat)) : list R :=
  map (fun st => INR (fst st) * idf n (snd st)) stats.

Fixpoint dot (u v : list R) : R :=
  match u, v with
  | x :: u', y :: v' => x * y + dot u' v'
  | _, _ => 0
  end.

Definition norm (u : list R) : R := sqrt (dot u u).

Definition l2_normalize (u : list R) : list R :=
  if Req_dec_T (norm u) 0 then u else map (fun x => x / norm u) u.

Definition tfidf_vector (docs : list string) (doc : string) : list R :=
  l2_normalize (tfidf_row (length docs) (term_stats docs doc)).

(** [TfidfVectorizer().fit_transform(docs)] *)
Definition fit_transform (docs : list string) : result (list (list R)) :=
  match vocabulary docs with
  | [] => Raise ValueError
  | _ :: _ => Ok (map (tfidf_vector docs) docs)
  end.

(** [cosine_similarity(X, Y)] *)
Definition cosine_similarity (X Y : list (list R)) : result (list (list R)) :=
  match X, Y with
  | [], _ | _, [] => Raise ValueError
  | _, _ =>
      Ok (map (fun x => map (fun y => dot (l2_normalize x) (l2_normalize y)) Y) X)
  end.

(** A row of the listings frame; [Similarity_Score] is [None] as long as the
    column has not been assigned. *)
Record Job : Type := mkJob {
  index : nat;
  id : string;
  title : string;
  Skills : string;
  Similarity_Score : option R
}.

Definition set_score (r : Job) (s : R) : Job :=
  {| index := index r; id := id r; title := title r; Skills := Skills r;
     Similarity_Score := Some s |}.

Definition score (r : Job) : R :=
  match Similarity_Score r with
  | Some s => s
  | None => 0
  end.

(** [cosine_sim[0]] of [recommended_jobs]. *)
Definition similarity_scores (user_skills : string) (job_listings : list Job)
  : result (list R) :=
  let all_skills := user_skills :: map Skills job_listings in
  bind (fit_transform all_skills) (fun skill_vectors =>
  bind (cosine_similarity (firstn 1 skill_vectors) (skipn 1 skill_vectors))
       (fun cosine_sim => Ok (nth 0 cosine_sim []))).

(** [job_listings["Similarity Score"] = cosine_sim[0]] *)
Definition assign_scores (job_listings : list Job) (scores : list R) : list Job :=
  map (fun rs => set_score (fst rs) (snd rs)) (combine job_listings scores).

(** [df.sort_values(by="Similarity Score", ascending=False)]. The call
    leaves the sort kind at the library's default, which does not promise
    an order for rows with equal scores; which one comes out is decided in
    the library. [sort_values_desc] holds of every frame the call can
    return: the rows of the frame, ordered by non-increasing score. *)
Definition by_score_desc (a b : Job) : Prop := score b <= score a.

Definition sort_values_desc (frame sorted : list Job) : Prop :=
  Permutation frame sorted /\ Sorted by_score_desc sorted.

Inductive recommended_jobs (user_skills : string) (job_listings : list Job)
  : result (list Job) -> Prop :=
| recommended_raise e :
    similarity_scores user_skills job_listings = Raise e ->
    recommended_jobs user_skills job_listings (Raise e)
| recommended_sorted scores sorted :
    similarity_scores user_skills job_listings = Ok scores ->
    sort_values_desc (assign_scores job_listings scores) sorted ->
    recommended_jobs user_skills job_listings (Ok sorted).

(** A frame read from a file: labels 0, 1, 2, ... and no score column. *)
Definition listing (i : nat) (skills : string) : Job :=
  {| index := i; id := ""; title := ""; Skills := skills;
     Similarity_Score := None |}.

Definition frame_of (skills : list string) : list Job :=
  map (fun p => listing (fst p) (snd p)) (combine (seq 0 (length skills)) skills).

(** The three listings of the ranking example. *)
Definition three_listings : list Job :=
  frame_of ["python, sql"; "java"; "python"].

(** The texts the vectorizer sees in the ranking example. *)
Definition example_docs : list string :=
  ["python, sql"; "python, sql"; "java"; "python"].

(** The divisor [l2_normalize] applies to a row. *)
Definition divisor (u : list R) : R :=
  if Req_dec_T (norm u) 0 then 1 else norm u.

(** The entry of [cosine_sim[0]] for a listing with the given skills. *)
Definition pair_score (docs : list string) (user_skills skills : string) : R :=
  dot (l2_normalize (tfidf_vector docs user_skills))
      (l2_normalize (tfidf_vector docs skills)).

End Ranker.

(** ** Skill gap: [recommended_skills] and the request handler around it *)

Module SkillGap.

(** [Counter(all_job_skills)[skill]] *)
Definition skill_count (all_job_skills : list string) (skill : string) : nat :=
  count_occ string_dec all_job_skills skill.

(** [sorted(xs, key=key, reverse=True)]: Python's sort is stable, also
    with [reverse=True]; elements with equal keys keep the order of [xs]. *)
Fixpoint insert_desc (key : string -> nat) (x : string) (l : list string)
  : list string :=
  match l with
  | [] => [x]
  | y :: l' =>
      if (key x <? key y)%nat then y :: insert_desc key x l' else x :: y :: l'
  end.

Fixpoint sorted_desc (key : string -> nat) (xs : list string) : list string :=
  match xs with
  | [] => []
  | x :: xs' => insert_desc key x (sorted_desc key xs')
  end.

Definition member (x : string) (l : list string) : bool :=
  existsb (String.eqb x) l.

Section Recommend.

Variable order : hash_order.

(** The list [recommended_skills] before it is cut. *)
Definition ranked_missing_skills (user_skills : string)
  (job_listings : list Ranker.Job) : list string :=
  let user_skills := split ", " user_skills in
  let Skills_list := map (fun r => split ", " (Ranker.Skills r)) job_listings in
  let all_job_skills := concat Skills_list in
  let missing_skills :=
    order (List.filter (fun skill => negb (member skill user_skills))
                       all_job_skills) in
  sorted_desc (skill_count all_job_skills) missing_skills.

(** [recommended_skills(user_skills, job_listings, skill_number)]; a slice
    bound that is neither [None] nor an integer raises [TypeError]. *)
Definition recommended_skills (user_skills : string)
  (job_listings : list Ranker.Job) (skill_number : pyval)
  : result (list string) :=
  let recommended_skills := ranked_missing_skills user_skills job_listings in
  match skill_number with
  | PyNone => Ok (firstn 10 recommended_skills)
  | PyInt k => Ok (slice_to recommended_skills k)
  | PyBool b => Ok (slice_to recommended_skills (Z.b2z b))
  | PyFloat _ | PyStr _ | PyOther _ => Raise TypeError
  end.

End Recommend.

(** [int(s)] for an ASCII string: surrounding white space, an optional
    sign, then decimal digits, where single underscores may separate
    digits. The white space [int] skips is TAB..CR and the space; FS..US,
    which [str.strip] removes, are not part of it. A string with more
    digits than the interpreter's limit on conversions (4300 by default)
    is refused like a malformed one. *)
Definition is_int_space (c : ascii) : bool :=
  let n := nat_of_ascii c in
  (((9 <=? n) && (n <=? 13)) || (n =? 32))%nat.

Fixpoint int_lstrip (s : string) : string :=
  match s with
  | EmptyString => EmptyString
  | String c s' => if is_int_space c then int_lstrip s' else s
  end.

Fixpoint int_rstrip (s : string) : string :=
  match s with
  | EmptyString => EmptyString
  | String c s' =>
      let r := int_rstrip s' in
      if is_int_space c && String.eqb r "" then EmptyString else String c r
  end.

Fixpoint digit_count (s : string) : nat :=
  match s with
  | EmptyString => 0
  | String c s' => ((if is_digit c then 1 else 0) + digit_count s')%nat
  end.

Definition MAX_STR_DIGITS : nat := 4300.

Definition digit_value (c : ascii) : Z := Z.of_nat (nat_of_ascii c - 48).

Fixpoint digits_value (acc : Z) (after_digit : bool) (s : string) : option Z :=
  match s with
  | EmptyString => if after_digit then Some acc else None
  | String c s' =>
      if is_digit c then digits_value (10 * acc + digit_value c) true s'
      else if Ascii.eqb c "_" && after_digit then digits_value acc false s'
      else None
  end.

Definition int_of_string (s : string) : result Z :=
  let parsed :=
    match int_lstrip (int_rstrip s) with
    | String "+" ds => digits_value 0 false ds
    | String "-" ds => option_map Z.opp (digits_value 0 false ds)
    | ds => digits_value 0 false ds
    end in
  match parsed with
  | Some z =>
      if (MAX_STR_DIGITS <? digit_count s)%nat then Raise ValueError else Ok z
  | None => Raise ValueError
  end.

(** [int(f)] for a float: the value cut towards zero; an infinity raises
    [OverflowError] and nan raises [ValueError]. *)
Definition int_of_float (f : spec_float) : result Z :=
  match f with
  | S754_zero _ => Ok 0%Z
  | S754_infinity _ => Raise OverflowError
  | S754_nan => Raise ValueError
  | S754_finite sign m e =>
      let magnitude :=
        if (0 <=? e)%Z then (Z.pos m * 2 ^ e)%Z else (Z.pos m / 2 ^ (- e))%Z in
      Ok (if sign then (- magnitude)%Z else magnitude)
  end.

(** [int(v)] *)
Definition int_ (v : pyval) : result Z :=
  match v with
  | PyNone => Raise TypeError
  | PyBool b => Ok (Z.b2z b)
  | PyInt z => Ok z
  | PyFloat f => int_of_float f
  | PyStr s => int_of_string s
  | PyOther _ => Raise TypeError
  end.

(** The treatment of [skill_count] in [RecommendedSkillsView.post]: the
    inner [try] catches [ValueError] and [TypeError] only. *)
Definition coerce_skill_count (skill_count : pyval) : result pyval :=
  if truthy skill_count && negb (is_int skill_count) then
    match int_ skill_count with
    | Ok z => Ok (PyInt z)
    | Raise ValueError | Raise TypeError => Ok PyNone
    | Raise e => Raise e
    end
  else Ok skill_count.

(** An HTTP response of the handler. *)
Inductive response : Type :=
| Response200 (recommended : list string)
| Response400
| Response500.

(** [RecommendedSkillsView.post]; [job_listings] is what reading the
    listings file gives. A [skills] value that is not a string has no
    [split] and ends in the handler's catch-all, as does an exception the
    treatment of [skill_count] lets through. *)
Definition RecommendedSkillsView_post (order : hash_order)
  (data : gmap string pyval) (job_listings : result (list Ranker.Job))
  : response :=
  match data !! "skills" with
  | None => Response400
  | Some user_skills =>
      match coerce_skill_count (default PyNone (data !! "skill_count")),
            job_listings, user_skills with
      | Ok skill_count, Ok job_listings, PyStr user_skills =>
          match recommended_skills order user_skills job_listings skill_count with
          | Ok skills => Response200 skills
          | Raise _ => Response500
          end
      | _, _, _ => Response500
      end
  end.

(** The listings of the recommendation example. *)
Definition gap_listings : list Ranker.Job :=
  Ranker.frame_of ["python, sql"; "python, sql"; "java"].

End SkillGap.

(** ** Certifications: [search_coursera_for_skill], [get_certifications] *)

Module Certifications.

(** An anchor of the result page, with what the scraper reads from it:
    the [class] attribute, [link.h3.string], the [aria-label] attribute,
    [link.text] and the [href] attribute. *)
Record Link : Type := mkLink {
  class_attr : option string;
  h3_string : option string;
  aria_label : option string;
  text : string;
  href : option string
}.

(** What the request for one query gives: the anchors of the page in
    document order, or an exception from the request or from the parser. *)
Inductive fetched : Type :=
| Html (anchors : list Link)
| RequestFailed
| UnexpectedError.

Definition nonempty (o : option string) : bool :=
  match o with
  | Some s => negb (String.eqb s "")
  | None => false
  end.

Definition TITLE_LINK_CLASS : string :=
  "cds-119 cds-113 cds-115 cds-CommonCard-titleLink css-vflzcf cds-142".

(** The three [find_all] queries, tried in this order until one finds
    something. *)
Definition find_by_class (anchors : list Link) : list Link :=
  List.filter (fun a => match class_attr a with
                        | Some c => String.eqb c TITLE_LINK_CLASS
                        | None => false
                        end) anchors.

Definition find_by_class_part (anchors : list Link) : list Link :=
  List.filter (fun a => match class_attr a with
                        | Some c => contains "CommonCard-titleLink" c
                        | None => false
                        end) anchors.

Definition find_by_href (anchors : list Link) : list Link :=
  List.filter (fun a => match href a with
                        | Some h => negb (String.eqb h "") && contains "/learn/" h
                        | None => false
                        end) anchors.

Definition select_links (anchors : list Link) : list Link :=
  match find_by_class anchors with
  | (_ :: _) as links => links
  | [] =>
      match find_by_class_part anchors with
      | (_ :: _) as links => links
      | [] => find_by_href anchors
      end
  end.

(** The title read from one anchor, [None] when there is none. *)
Definition link_title (link : Link) : option string :=
  if nonempty (h3_string link) then h3_string link
  else if nonempty (aria_label link) then aria_label link
  else if negb (String.eqb (text link) "") then Some (strip (text link))
  else None.

Definition absolute (h : string) : string :=
  if String.prefix "http" h then h else "https://www.coursera.org" ++ h.

(** The loop over the links: [[title, href]] for every link that has a
    non-empty title and a non-empty [href]. *)
Fixpoint extract_courses (links : list Link) : list (string * string) :=
  match links with
  | [] => []
  | link :: links' =>
      match link_title link, href link with
      | Some title, Some h =>
          if negb (String.eqb title "") && negb (String.eqb h "")
          then (title, absolute h) :: extract_courses links'
          else extract_courses links'
      | _, _ => extract_courses links'
      end
  end.

(** A course as [get_certifications] returns it: [[title, url]] or
    [[title, url, skill]]. *)
Record Course : Type := mkCourse {
  course_title : string;
  course_url : string;
  course_skill : option string
}.

Definition untagged (c : string * string) : Course :=
  {| course_title := fst c; course_url := snd c; course_skill := None |}.

Definition tagged (skill : string) (c : string * string) : Course :=
  {| course_title := fst c; course_url := snd c; course_skill := Some skill |}.

Definition limit_per_skill : nat := 3.

Section Catalog.

(** The catalogue: what the search request for a query gives. *)
Variable coursera : string -> fetched.

Definition search_coursera_for_skill (skill : string) : list (string * string) :=
  if String.eqb skill "" || String.eqb (strip skill) "" then []
  else
    match coursera skill with
    | Html anchors => extract_courses (select_links anchors)
    | RequestFailed => []
    | UnexpectedError => []
    end.

(** [[skill.strip() for skill in specialization.split(',') if skill.strip()][:10]] *)
Definition skills_of (specialization : string) : list string :=
  firstn 10
    (map strip
       (List.filter (fun skill => negb (String.eqb (strip skill) ""))
                    (split "," specialization))).

(** The loop over the skills, appending to [courses]. *)
Fixpoint collect_courses (skills : list string) (courses : list Course)
  : list Course :=
  match skills with
  | [] => courses
  | skill :: skills' =>
      let skill_courses := search_coursera_for_skill skill in
      let limited_courses := firstn limit_per_skill skill_courses in
      collect_courses skills' (courses ++ map (tagged skill) limited_courses)
  end.

(** The loop that drops repeated titles. *)
Fixpoint unique_by_title (courses : list Course) (seen_titles : gset string)
  (unique_courses : list Course) : list Course :=
  match courses with
  | [] => unique_courses
  | course :: courses' =>
      if decide (course_title course ∈ seen_titles)
      then unique_by_title courses' seen_titles unique_courses
      else unique_by_title courses' ({[course_title course]} ∪ seen_titles)
                           (unique_courses ++ [course])
  end.

Definition get_certifications (specialization : string) : list Course :=
  if contains "," specialization then
    let skills := skills_of specialization in
    let courses := collect_courses skills [] in
    unique_by_title courses ∅ []
  else
    let skill_courses := search_coursera_for_skill specialization in
    map untagged (firstn limit_per_skill skill_courses).

End Catalog.

(** The same catalogue with every failed request answered by an empty
    page. *)
Definition without_failures (coursera : string -> fetched) (query : string)
  : fetched :=
  match coursera query with
  | Html anchors => Html anchors
  | RequestFailed | UnexpectedError => Html []
  end.

(** The first course of a list with a given title. *)
Definition first_with_title (title : string) (courses : list Course)
  : option Course :=
  List.find (fun c => String.eqb (course_title c) title) courses.

(** A small catalogue: two skills share one course title, a third skill
    cannot be reached. *)
Definition card (title url : string) : Link :=
  {| class_attr := Some TITLE_LINK_CLASS; h3_string := Some title;
     aria_label := None; text := title; href := Some url |}.

Definition demo_catalog (query : string) : fetched :=
  if String.eqb query "python"
  then Html [card "Python for Everybody" "/learn/python";
             card "Data Science" "/learn/ds-python"]
  else if String.eqb query "sql"
  then Html [card "Data Science" "/learn/ds-sql";
             card "SQL Basics" "https://example.org/sql"]
  else RequestFailed.

End Certifications.

(** ** Paginated fetching: [fetch_paginated_jobs]

    The caller's [params] dictionary is an object in a store and the
    function holds a reference to it, so that what the function writes is
    what the caller sees afterwards. *)

Module Fetcher.

Abbreviation dict := (gmap string pyval).
Abbreviation loc := positive.
Abbreviation store := (gmap positive (gmap string pyval)).

Section Fetch.

(** A job record of the API. *)
Variable job : Type.

(** The outcome of one turn of the [try]: [requests.get], then
    [raise_for_status], [json] and the reading of the answer.
    [Failed] is a [RequestException], which the loop catches. [Body] is a
    JSON object: [jobs] is what iterating over [data.get("jobs", [])]
    gives, empty for a missing or falsy entry, and [nextPage] is
    [data.get("nextPage")]. [Unusable e] is an answer on which the turn
    raises an exception [e] that is not a [RequestException], so that it
    leaves the function: [AttributeError] when the JSON is not an object
    and has no [get], [TypeError] when [jobs] is a number other than zero
    or [true] and cannot extend a list. *)
Inductive response : Type :=
| Failed
| Body (jobs : list job) (nextPage : pyval)
| Unusable (e : exn).

(** The service: the answer to the request number [page_num] made with the
    given query parameters. *)
Variable api : nat -> dict -> response.

(** The variables of the loop, the store, the requests made, and the
    exception that left the loop, if any. *)
Record state : Type := mkState {
  all_jobs : list job;
  next_page : pyval;
  heap : store;
  requests : list dict;
  raised : option exn
}.

(** [params["nextPage"] = next_page], through the reference. *)
Definition write_cursor (params : loc) (cursor : pyval) (h : store) : store :=
  alter (fun d => <["nextPage" := cursor]> d) params h.

Definition read_params (params : loc) (h : store) : dict :=
  default ∅ (h !! params).

(** The body of the loop for [page_num] and the [pages_left] iterations
    from there on. *)
Fixpoint fetch_pages (params : loc) (pages_left page_num : nat) (st : state)
  : state :=
  match pages_left with
  | O => st
  | S pages_left' =>
      let h := if truthy (next_page st)
               then write_cursor params (next_page st) (heap st)
               else heap st in
      let sent := read_params params h in
      let requests' := (requests st ++ [sent])%list in
      match api page_num sent with
      | Failed =>
          {| all_jobs := all_jobs st; next_page := next_page st;
             heap := h; requests := requests'; raised := None |}
      | Unusable e =>
          {| all_jobs := all_jobs st; next_page := next_page st;
             heap := h; requests := requests'; raised := Some e |}
      | Body jobs nextPage =>
          match jobs with
          | [] =>
              {| all_jobs := all_jobs st; next_page := next_page st;
                 heap := h; requests := requests'; raised := None |}
          | _ :: _ =>
              let st' := {| all_jobs := (all_jobs st ++ jobs)%list;
                            next_page := nextPage;
                            heap := h; requests := requests';
                            raised := None |} in
              if truthy nextPage
              then fetch_pages params pages_left' (S page_num) st'
              else st'
          end
      end
  end.

Definition run_fetch (h : store) (params : loc) (max_pages : Z) : state :=
  fetch_pages params (Z.to_nat max_pages) 0
    {| all_jobs := []; next_page := PyStr ""; heap := h; requests := [];
       raised := None |}.

(** [fetch_paginated_jobs(api_url, params, headers, max_pages)]: the list
    returned, or the exception that left the loop, and the store left
    behind. *)
Definition fetch_paginated_jobs (h : store) (params : loc) (max_pages : Z)
  : result (list job) * store :=
  let st := run_fetch h params max_pages in
  (match raised st with
   | None => Ok (all_jobs st)
   | Some e => Raise e
   end, heap st).

(** A page after which the loop goes on: some job and a cursor. *)
Definition continues (r : response) : bool :=
  match r with
  | Body (_ :: _) nextPage => truthy nextPage
  | _ => false
  end.

Definition jobs_of (r : response) : list job :=
  match r with
  | Body jobs _ => jobs
  | _ => []
  end.

Definition cursor_of (r : response) : pyval :=
  match r with
  | Body _ nextPage => nextPage
  | _ => PyNone
  end.

(** Consecutive requests: each request after the first is the one before
    it with the cursor of its answer written under [nextPage]. *)
Inductive cursor_chain : nat -> list dict -> Prop :=
| chain_last page_num sent : cursor_chain page_num [sent]
| chain_next page_num sent j js cursor rest :
    api page_num sent = Body (j :: js) cursor ->
    truthy cursor = true ->
    cursor_chain (S page_num) (<["nextPage" := cursor]> sent :: rest) ->
    cursor_chain page_num (sent :: <["nextPage" := cursor]> sent :: rest).

End Fetch.

Arguments Failed {job}.
Arguments Body {job} jobs nextPage.
Arguments Unusable {job} e.
Arguments all_jobs {job} s.
Arguments next_page {job} s.
Arguments heap {job} s.
Arguments requests {job} s.
Arguments raised {job} s.

(** The default query of the module, stored at location 1. *)
Definition DEFAULT_PARAMS : dict :=
  {[ "query" := PyStr "";
     "location" := PyStr "India";
     "autoTranslateLocation" := PyStr "true";
     "remoteOnly" := PyStr "false";
     "employmentTypes" := PyStr "fulltime;parttime;intern;contractor" ]}.

Definition demo_store : store := {[ 1%positive := DEFAULT_PARAMS ]}.

(** A service with one job on the first page and nothing on the second. *)
Definition two_page_api (page_num : nat) (sent : dict) : response string :=
  match page_num with
  | O => Body ["x"] (PyStr "t1")
  | _ => Body [] PyNone
  end.

(** A service that fails from its third request on. *)
Definition failing_api (page_num : nat) (sent : dict) : response string :=
  match page_num with
  | 0 => Body ["a"; "b"] (PyStr "t1")
  | 1 => Body ["c"] (PyStr "t2")
  | _ => Failed
  end.

(** A service whose first answer is the JSON array [[]] in place of an
    object. *)
Definition array_api (page_num : nat) (sent : dict) : response string :=
  Unusable AttributeError.

(** A service that answers by the cursor it is sent: the first page to a
    request without cursor, the last page to the cursor of the first. *)
Definition cursor_api (page_num : nat) (sent : dict) : response string :=
  match sent !! "nextPage" with
  | None => Body ["x"] (PyStr "t1")
  | Some _ => Body [] PyNone
  end.

End Fetcher.

(** ** Further definitions used by the properties below

    The request handlers of [job_matcher/views.py] are modelled with the
    functions they import from [main.py]; the fallback definitions of
    [views.py] are in use only when that import fails. *)

Module FetcherLog.
Import Fetcher.

(** The jobs of the answers to a list of requests, the first of which has
    the number [page_num]. *)
Fixpoint answered_jobs {job : Type} (api : nat -> dict -> response job)
  (page_num : nat) (reqs : list dict) : list job :=
  match reqs with
  | [] => []
  | sent :: reqs' =>
      (jobs_of job (api page_num sent) ++ answered_jobs api (S page_num) reqs')%list
  end.

(** The exception with which an answer leaves the loop, if it does. *)
Definition escaped {job : Type} (r : response job) : option exn :=
  match r with
  | Unusable e => Some e
  | _ => None
  end.

End FetcherLog.

(** Another iteration order of a set: last occurrences first. *)
Definition reversed_order : hash_order :=
  {| list_set := fun l => reverse (remove_dups l);
     list_set_perm := fun l => reverse_Permutation (remove_dups l) |}.

(** A string without a comma. *)
Definition comma_free (s : string) : bool := negb (contains "," s).

(** ** [CertificationsView.get] *)

Module CertificationsView.
Import Certifications.

(** The specialization the handler passes to [get_certifications]. *)
Definition clean_specialization (specialization : string) : string :=
  if contains "," specialization then
    let skills :=
      map strip
          (List.filter (fun skill => negb (String.eqb (strip skill) ""))
                       (split "," specialization)) in
    let skills := if (10 <? length skills)%nat then firstn 10 skills else skills in
    join ", " skills
  else specialization.

(** One entry of the answer: [name], [url] and, when present, [skill]. *)
Definition cert_data (cert : Course) : string * string * option string :=
  (course_title cert, course_url cert, course_skill cert).

Inductive response : Type :=
| Response200 (certifications : list (string * string * option string))
| Response400.

(** [CertificationsView.get]; [specialization] is the query parameter,
    [None] when it is not given. *)
Definition get (coursera : string -> fetched) (specialization : option string)
  : response :=
  let specialization := default "" specialization in
  if String.eqb specialization "" then Response400
  else
    let certifications :=
      get_certifications coursera (clean_specialization specialization) in
    Response200 (map cert_data certifications).

End CertificationsView.

(** ** Skill gap: the quantities [recommended_skills] works with *)

Module SkillGapFacts.

(** All skill tokens of the listings, with repetition. *)
Definition all_job_skills (job_listings : list Ranker.Job) : list string :=
  concat (map (fun r => split ", " (Ranker.Skills r)) job_listings).

(** In how many places of the listings a skill is named. *)
Definition frequency (job_listings : list Ranker.Job) (skill : string) : nat :=
  SkillGap.skill_count (all_job_skills job_listings) skill.

(** The order by non-increasing frequency. *)
Definition by_frequency_desc (job_listings : list Ranker.Job) (a b : string)
  : Prop :=
  frequency job_listings b <= frequency job_listings a.

(** The values of [skill_count] that are neither converted nor usable:
    the empty string, an empty array or object and a float zero are false,
    so they are passed on as they are and refused as a slice bound; for a
    float infinity [int] raises [OverflowError], which is not caught. *)
Definition unusable_count (v : pyval) : bool :=
  match v with
  | PyStr "" | PyOther false => true
  | PyFloat (S754_zero _) | PyFloat (S754_infinity _) => true
  | _ => false
  end.

End SkillGapFacts.

(** Deciding the order of two rows by score. *)
#[export] Instance by_score_desc_dec (a b : Ranker.Job) :
  Decision (Ranker.by_score_desc a b) :=
  Rle_dec (Ranker.score b) (Ranker.score a).

(** ** [load_job_listings] *)

Module Loader.

(** A row of the listings file and the file as [pd.read_csv] gives it.
    [raw_description] is [None] for an empty cell, which is read as a
    float and has no [lower]; [raw_Skills] is read only when the file has
    a [Skills] column, and such a cell is kept as it is. *)
Record RawRow : Type := mkRawRow {
  raw_id : string;
  raw_title : string;
  raw_description : option string;
  raw_Skills : string
}.

Record RawFrame : Type := mkRawFrame {
  has_Skills : bool;
  has_description : bool;
  raw_rows : list RawRow
}.

Section Load.

Variable nlp : option (string -> result (list string)).
Variable order : hash_order.

Definition kept_row (i : nat) (row : RawRow) : Ranker.Job :=
  Ranker.mkJob i (raw_id row) (raw_title row) (raw_Skills row) None.

(** One step of [listings['description'].apply(extract_skills)]. *)
Definition filled_row (i : nat) (row : RawRow) : result Ranker.Job :=
  match raw_description row with
  | None => Raise OtherError
  | Some description =>
      Ok (Ranker.mkJob i (raw_id row) (raw_title row)
            (SkillExtractor.extract_skills nlp order description) None)
  end.

Fixpoint fill_rows (i : nat) (rows : list RawRow) : result (list Ranker.Job) :=
  match rows with
  | [] => Ok []
  | row :: rows' =>
      bind (filled_row i row) (fun r =>
      bind (fill_rows (S i) rows') (fun rs => Ok (r :: rs)))
  end.

Fixpoint keep_rows (i : nat) (rows : list RawRow) : list Ranker.Job :=
  match rows with
  | [] => []
  | row :: rows' => kept_row i row :: keep_rows (S i) rows'
  end.

(** The body of the [try]. *)
Definition load_frame (frame : RawFrame) : result (list Ranker.Job) :=
  if has_Skills frame then Ok (keep_rows 0 (raw_rows frame))
  else if has_description frame then fill_rows 0 (raw_rows frame)
  else Raise OtherError.

(** [load_job_listings(file_path)]; [read_csv] is what reading the file
    gives. Any exception ends in the empty frame. *)
Definition load_job_listings (read_csv : result RawFrame) : list Ranker.Job :=
  match bind read_csv load_frame with
  | Ok listings => listings
  | Raise _ => []
  end.

End Load.

(** A row whose skills string splits at ", " into a non-empty list of
    vocabulary entries. *)
Definition filled (job : Ranker.Job) : Prop :=
  split ", " (Ranker.Skills job) <> [] /\
  List.Forall (fun s => In s SkillExtractor.COMMON_TECH_SKILLS)
              (split ", " (Ranker.Skills job)).

End Loader.

(** ** [ExtractSkillsView.post] *)

Module ExtractSkillsView.

(** The status of an answer and, for 200, its [skills]. *)
Inductive response : Type :=
| Response200 (skills : string)
| Response400
| Response500.

(** [s.endswith(suffix)] *)
Definition ends_with (suffix s : string) : bool :=
  String.prefix (String.rev suffix) (String.rev s).

(** [not s or len(s.strip()) == 0] *)
Definition blank (s : string) : bool :=
  String.eqb s "" || String.eqb (strip s) "".


Section Post.

Variable nlp : option (string -> result (list string)).
Variable order : hash_order.

(** [extract_pdf_text(path)]: the text of the saved file, or the exception
    raised while reading it. *)
Variable extract_pdf_text : string -> result string.

(** [os.path.join(settings.MEDIA_ROOT, name)] *)
Variable media_path : string -> string.

(** The answer once the upload is saved at [path]. *)
Definition answer (path : string) : response :=
  match extract_pdf_text path with
  | Raise ValueError => Response400
  | Raise _ => Response500
  | Ok text =>
      if blank text then Response400
      else
        let skills := SkillExtractor.extract_skills nlp order text in
        Response200
          (if blank skills then "python, javascript, html, css, sql" else skills)
  end.

(** [post]: [resume] is the name of the uploaded file, [None] without
    upload; [files] are the paths that exist. Writing the upload and
    removing it in the [finally] clause are taken to succeed. *)
Definition post (files : gset string) (resume : option string)
  : response * gset string :=
  match resume with
  | None => (Response400, files)
  | Some name =>
      if ends_with ".pdf" (lower name) then
        let file_path := media_path name in
        let saved := {[file_path]} ∪ files in
        (answer file_path, saved ∖ {[file_path]})
      else (Response400, files)
  end.

End Post.

End ExtractSkillsView.

(** ** [get_job_links] and [JobLinksView.post] *)

Module JobLinks.

(** What the body of the loop does with one [jobProviders] field:
    [Pairs li] when the field denotes a list [li] of pairs; [Skipped] when
    [ast.literal_eval] or the frame constructor raises [ValueError] or
    [SyntaxError], which the loop catches; [Uncaught] for any other
    exception, such as the [TypeError] of slicing a number. *)
Inductive parsed : Type :=
| Pairs (li : list (string * string))
| Skipped
| Uncaught.

Section Links.

Variable literal_eval : string -> parsed.

(** The loop over the [jobProviders] column. *)
Fixpoint collect_links (jobProviders : list string)
  (job_links_df : list (string * string)) : result (list (string * string)) :=
  match jobProviders with
  | [] => Ok job_links_df
  | i :: rest =>
      match literal_eval i with
      | Pairs li => collect_links rest (job_links_df ++ firstn 2 li)
      | Skipped => collect_links rest job_links_df
      | Uncaught => Raise TypeError
      end
  end.

(** [get_job_links(recommended_jobs)]; the argument is the [jobProviders]
    column of the frame, [None] when the frame has no such column. *)
Definition get_job_links (jobProviders : option (list string))
  : result (list (string * string)) :=
  match jobProviders with
  | None => Ok []
  | Some column => collect_links column []
  end.

(** The [jobs] entry of the request. *)
Inductive jobs_field : Type :=
| NoJobs
| NotAList
| JobIds (job_ids : list string).

Inductive response : Type :=
| Response200 (links : list (string * string))
| Response400
| Response500.

(** [JobLinksView.post]: the frame it builds has the single column [id]. *)
Definition JobLinksView_post (jobs : jobs_field) : response :=
  match jobs with
  | NoJobs => Response400
  | NotAList => Response400
  | JobIds job_ids =>
      let jobs_df_jobProviders : option (list string) := None in
      match get_job_links jobs_df_jobProviders with
      | Ok links_list => Response200 links_list
      | Raise _ => Response500
      end
  end.

(** The links one field contributes. *)
Definition links_of (i : string) : list (string * string) :=
  match literal_eval i with
  | Pairs li => firstn 2 li
  | _ => []
  end.

Definition uncaught (i : string) : bool :=
  match literal_eval i with
  | Uncaught => true
  | _ => false
  end.

Definition readable (i : string) : bool :=
  match literal_eval i with
  | Pairs _ => true
  | _ => false
  end.

End Links.

(** A reader that knows one field with three pairs and one field that
    denotes a number. *)
Definition demo_literal_eval (i : string) : parsed :=
  if String.eqb i "[('a', 'https://a'), ('b', 'https://b'), ('c', 'https://c')]" then
    Pairs [("a", "https://a"); ("b", "https://b"); ("c", "https://c")]
  else if String.eqb i "5" then Uncaught
  else Skipped.

End JobLinks.

(** ** The [page] parameter of [ProxyJobsView.post] *)

Module ProxyJobs.

(** The [try] around [int(request.data.get('page', 1))]: the page is at
    least 1, and 1 when [int] raises [ValueError] or [TypeError]; any
    other exception of [int] leaves the [try] and the handler answers 500
    without calling the service. *)
Definition page_param (data : gmap string pyval) : result Z :=
  match SkillGap.int_ (default (PyInt 1) (data !! "page")) with
  | Ok page => Ok (if (page <? 1)%Z then 1%Z else page)
  | Raise ValueError | Raise TypeError => Ok 1%Z
  | Raise e => Raise e
  end.

End ProxyJobs.

(** ** [RecommendedJobsView.post] and [JobSerializer] *)

Module JobsView.

(** The fields [JobSerializer] declares, each with its [required] flag. *)
Definition JobSerializer_fields : list (string * bool) :=
  [ ("id", true); ("title", true); ("company", true); ("location", true);
    ("description", true); ("Skills", true); ("Similarity_Score", true);
    ("employment_type", false); ("job_apply_link", false);
    ("employer_logo", false) ].

(** Serializing a record with the given keys: the first required field
    that is not among them raises [KeyError]; the three fields that are not
    required allow null and never raise. *)
Definition missing_field (keys : list string) : option string :=
  option_map fst
    (List.find (fun f => snd f && negb (SkillGap.member (fst f) keys))
               JobSerializer_fields).

(** The listings file: its column names and its rows. *)
Record Listings : Type := mkListings {
  columns : list string;
  rows : list Ranker.Job
}.

(** The file the handler writes when there is none. *)
Definition SAMPLE : Listings :=
  {| columns := ["id"; "title"; "company"; "location"; "description"; "Skills"];
     rows :=
       [ Ranker.mkJob 0 "1" "Software Engineer" "python, javascript" None;
         Ranker.mkJob 1 "2" "Data Scientist" "python, sql, machine learning" None;
         Ranker.mkJob 2 "3" "Web Developer" "html, css, javascript, react" None ] |}.

(** What [pd.read_csv] gives: for a missing file, the sample just written. *)
Definition listings_of (file : option (result Listings)) : result Listings :=
  match file with
  | None => Ok SAMPLE
  | Some read => read
  end.

(** The keys of a record of the ranked frame. *)
Definition record_keys (l : Listings) : list string :=
  (columns l ++ ["Similarity Score"])%list.

Inductive response : Type :=
| Response200 (jobs : list Ranker.Job)
| Response400
| Response500.

Definition is_text (v : pyval) : bool :=
  match v with
  | PyStr _ => true
  | _ => false
  end.

(** [RecommendedJobsView.post]: [skills] is the entry of the request,
    [file] the listings file ([None] when it does not exist). Every
    exception ends in the answer 500: an unreadable file, a frame without
    [Skills] column, skills that are not text and so have no [lower], a
    failing ranking, and a record that lacks a required field of the
    serializer. *)
Inductive post (skills : option pyval) (file : option (result Listings))
  : response -> Prop :=
| post_no_skills :
    skills = None -> post skills file Response400
| post_unreadable user_skills e :
    skills = Some user_skills -> listings_of file = Raise e ->
    post skills file Response500
| post_no_Skills_column user_skills l :
    skills = Some user_skills -> listings_of file = Ok l ->
    SkillGap.member "Skills" (columns l) = false ->
    post skills file Response500
| post_not_text user_skills l :
    skills = Some user_skills -> listings_of file = Ok l ->
    SkillGap.member "Skills" (columns l) = true ->
    is_text user_skills = false ->
    post skills file Response500
| post_ranking_raises user_skills l e :
    skills = Some (PyStr user_skills) -> listings_of file = Ok l ->
    SkillGap.member "Skills" (columns l) = true ->
    Ranker.recommended_jobs user_skills (rows l) (Raise e) ->
    post skills file Response500
| post_serializer_raises user_skills l sorted field :
    skills = Some (PyStr user_skills) -> listings_of file = Ok l ->
    SkillGap.member "Skills" (columns l) = true ->
    Ranker.recommended_jobs user_skills (rows l) (Ok sorted) ->
    sorted <> [] ->
    missing_field (record_keys l) = Some field ->
    post skills file Response500
| post_serialized user_skills l sorted :
    skills = Some (PyStr user_skills) -> listings_of file = Ok l ->
    SkillGap.member "Skills" (columns l) = true ->
    Ranker.recommended_jobs user_skills (rows l) (Ok sorted) ->
    sorted = [] \/ missing_field (record_keys l) = None ->
    post skills file (Response200 sorted).

End JobsView.

(** * Properties *)

(** ** String primitives *)

Lemma is_space_lower_char c : is_space (lower_char c) = is_space c.
Proof. destruct c as [[] [] [] [] [] [] [] []]; reflexivity. Qed.

Lemma lower_char_idem c : lower_char (lower_char c) = lower_char c.
Proof. destruct c as [[] [] [] [] [] [] [] []]; reflexivity. Qed.

Lemma lower_idem s : lower (lower s) = lower s.
Proof.
  induction s as [|c s IH]; simpl; [reflexivity|].
  now rewrite lower_char_idem, IH.
Qed.

Lemma lower_eqb_empty s : String.eqb (lower s) "" = String.eqb s "".
Proof. now destruct s. Qed.

Lemma lower_lstrip s : lstrip (lower s) = lower (lstrip s).
Proof.
  induction s as [|c s IH]; simpl; [reflexivity|].
  rewrite is_space_lower_char. now destruct (is_space c).
Qed.

Lemma lower_rstrip s : rstrip (lower s) = lower (rstrip s).
Proof.
  induction s as [|c s IH]; simpl; [reflexivity|].
  rewrite is_space_lower_char, IH, lower_eqb_empty.
  now destruct (is_space c && String.eqb (rstrip s) "").
Qed.

Lemma lower_strip s : strip (lower s) = lower (strip s).
Proof. unfold strip. now rewrite lower_rstrip, lower_lstrip. Qed.

(** [list(set(l))] has exactly the elements of [l]. *)
Lemma list_set_elem (order : hash_order) l x : x ∈ order l <-> x ∈ l.
Proof.
  rewrite (list_set_perm order l). apply elem_of_remove_dups.
Qed.

Lemma list_set_nil (order : hash_order) l : order l = [] -> l = [].
Proof.
  intros E. destruct l as [|x l]; [reflexivity|].
  assert (H : x ∈ order (x :: l)) by (apply list_set_elem; left).
  rewrite E in H. inversion H.
Qed.

(** ** Skill extraction *)

Section ExtractFacts.
Import SkillExtractor.

Lemma normalizedb_spec t : normalizedb t = true -> normalized t.
Proof.
  unfold normalizedb, normalized. intros H.
  apply andb_prop in H as [H1 H2].
  split; now apply String.eqb_eq.
Qed.

Lemma vocabulary_normalized : Forall normalized COMMON_TECH_SKILLS.
Proof.
  apply Forall_forall. intros t Ht.
  apply normalizedb_spec.
  assert (H : forallb normalizedb COMMON_TECH_SKILLS = true) by reflexivity.
  rewrite forallb_forall in H. now apply H, list_elem_of_In.
Qed.

Lemma default_normalized : Forall normalized DEFAULT_SKILLS.
Proof. repeat (constructor; [split; reflexivity|]). constructor. Qed.

Lemma found_skills_normalized text : Forall normalized (found_skills text).
Proof.
  unfold found_skills. apply Forall_forall. intros t Ht.
  apply list_elem_of_In, filter_In in Ht as [Ht _].
  apply list_elem_of_In in Ht.
  revert t Ht. apply Forall_forall, vocabulary_normalized.
Qed.

Lemma fallback_skills_nonempty text : fallback_skills text <> [].
Proof.
  unfold fallback_skills. destruct (found_skills text) eqn:E; discriminate.
Qed.

Lemma fallback_skills_normalized text : Forall normalized (fallback_skills text).
Proof.
  unfold fallback_skills.
  pose proof (found_skills_normalized text) as H.
  destruct (found_skills text); [apply default_normalized | exact H].
Qed.

Variable nlp : option (string -> result (list string)).
Variable order : hash_order.

Lemma model_skills_nonempty text skills :
  model_skills nlp order text = Some skills -> skills <> [].
Proof.
  unfold model_skills. destruct nlp as [run|]; [|discriminate].
  destruct (run text) as [ents|]; [|discriminate].
  destruct (order (map lower ents)); [discriminate|].
  intros [= <-]. discriminate.
Qed.

Lemma model_skills_from_ents text skills :
  model_skills nlp order text = Some skills ->
  exists run ents,
    nlp = Some run /\ run text = Ok ents /\ skills = order (map lower ents).
Proof.
  unfold model_skills. destruct nlp as [run|]; [|discriminate].
  destruct (run text) as [ents|] eqn:E; [|discriminate].
  destruct (order (map lower ents)) eqn:E'; [discriminate|].
  intros [= <-]. exists run, ents. now rewrite E'.
Qed.

End ExtractFacts.

(** C9 (as the code has it): every vocabulary entry has at least two
    characters, and the entries shorter than three are exactly "c#" and
    "go". *)
Theorem vocabulary_entry_lengths :
  Forall (fun skill => 2 <= String.length skill) SkillExtractor.COMMON_TECH_SKILLS /\
  List.filter (fun skill => (String.length skill <? 3)%nat)
    SkillExtractor.COMMON_TECH_SKILLS
  = ["c#"; "go"].
Proof.
  split; [|reflexivity].
  apply Forall_forall. intros t Ht.
  assert (H : forallb (fun skill => (2 <=? String.length skill)%nat)
                SkillExtractor.COMMON_TECH_SKILLS = true) by reflexivity.
  rewrite forallb_forall in H. apply Nat.leb_le. now apply H, list_elem_of_In.
Qed.

(** C9 fails as stated: "go" is an entry of the vocabulary and has two
    characters. *)
Lemma vocabulary_has_short_entry :
  ~ Forall (fun skill => 3 <= String.length skill) SkillExtractor.COMMON_TECH_SKILLS.
Proof.
  intros H. rewrite Forall_forall in H.
  specialize (H "go"). simpl in H.
  assert (3 <= 2) by (apply H, list_elem_of_In; do 61 right; now left).
  lia.
Qed.

(** ** Lists and strings *)

Lemma In_firstn {A} (n : nat) (l : list A) (x : A) :
  In x (firstn n l) -> In x l.
Proof.
  revert l. induction n as [|n IH]; intros [|y l] Hin; simpl in *; try tauto.
  destruct Hin as [->|Hin]; [now left | right; now apply IH].
Qed.


Lemma string_app_cons (x : ascii) (a b : string) :
  String x a ++ b = String x (a ++ b).
Proof. reflexivity. Qed.

Lemma string_app_nil_l (b : string) : "" ++ b = b.
Proof. reflexivity. Qed.

Lemma string_app_assoc (a b c : string) : (a ++ b) ++ c = a ++ (b ++ c).
Proof.
  induction a as [|x a IH]; [reflexivity|].
  now rewrite !string_app_cons, IH.
Qed.

Lemma string_app_nil_r (a : string) : a ++ "" = a.
Proof.
  induction a as [|x a IH]; [reflexivity|].
  now rewrite string_app_cons, IH.
Qed.

Lemma prefix_nil (s : string) : String.prefix "" s = true.
Proof. now destruct s. Qed.

Lemma contains_comma_cons (c : ascii) (s : string) :
  contains "," (String c s) = Ascii.eqb c "," || contains "," s.
Proof.
  cbn [contains String.prefix].
  destruct (ascii_dec "," c) as [<-|Hne].
  - now rewrite prefix_nil.
  - destruct (Ascii.eqb_spec c ","); [congruence | reflexivity].
Qed.

Lemma comma_free_cons (c : ascii) (s : string) :
  comma_free (String c s) = negb (Ascii.eqb c ",") && comma_free s.
Proof. unfold comma_free. rewrite contains_comma_cons. now destruct (Ascii.eqb c ","). Qed.

Lemma comma_free_app (a b : string) :
  comma_free (a ++ b) = comma_free a && comma_free b.
Proof.
  induction a as [|x a IH]; [reflexivity|].
  rewrite string_app_cons, !comma_free_cons, IH. now rewrite andb_assoc.
Qed.

Lemma comma_free_lstrip (s : string) :
  comma_free s = true -> comma_free (lstrip s) = true.
Proof.
  induction s as [|c s IH]; [reflexivity|]. intros H. simpl.
  destruct (is_space c); [|exact H].
  rewrite comma_free_cons in H. apply andb_prop in H as [_ H]. now apply IH.
Qed.

Lemma comma_free_rstrip (s : string) :
  comma_free s = true -> comma_free (rstrip s) = true.
Proof.
  induction s as [|c s IH]; [reflexivity|]. intros H. simpl.
  rewrite comma_free_cons in H. apply andb_prop in H as [Hc H].
  destruct (is_space c && String.eqb (rstrip s) ""); [reflexivity|].
  rewrite comma_free_cons, Hc. now apply IH.
Qed.

Lemma comma_free_strip (s : string) :
  comma_free s = true -> comma_free (strip s) = true.
Proof. intros H. now apply comma_free_lstrip, comma_free_rstrip. Qed.

(** A piece without comma is read through by [split] on "," and on ", ". *)
Lemma split_go_piece (sep' : string) (e : string) :
  comma_free e = true ->
  forall cur rest,
    split_go (String "," sep') 0 cur (e ++ rest) =
    split_go (String "," sep') 0 (cur ++ e) rest.
Proof.
  induction e as [|c e IH]; intros He cur rest.
  - now rewrite string_app_nil_r.
  - rewrite comma_free_cons in He. apply andb_prop in He as [Hc He].
    rewrite string_app_cons. cbn [split_go String.prefix].
    destruct (ascii_dec "," c) as [<-|_]; [discriminate|].
    rewrite (IH He), string_app_assoc. reflexivity.
Qed.

Lemma split_comma_join (l : list string) :
  List.Forall (fun e => comma_free e = true) l ->
  forall x cur,
    comma_free x = true ->
    split_go "," 0 cur (join ", " (x :: l)) =
    (cur ++ x) :: map (fun e => " " ++ e) l.
Proof.
  induction 1 as [|y l Hy Hl IH]; intros x cur Hx.
  - simpl. rewrite <- (string_app_nil_r x) at 1.
    now rewrite (split_go_piece "" x Hx).
  - change (join ", " (x :: y :: l)) with (x ++ ", " ++ join ", " (y :: l)).
    rewrite (split_go_piece "" x Hx).
    change (", " ++ join ", " (y :: l))
      with (String "," (" " ++ join ", " (y :: l))).
    cbn [split_go String.prefix]. destruct (ascii_dec "," ","); [|congruence].
    rewrite prefix_nil. f_equal. simpl Nat.sub.
    rewrite (split_go_piece "" " " eq_refl), string_app_nil_l.
    rewrite (IH y " " Hy). reflexivity.
Qed.

Lemma split_commaspace_join (l : list string) :
  List.Forall (fun e => comma_free e = true) l ->
  forall x cur,
    comma_free x = true ->
    split_go ", " 0 cur (join ", " (x :: l)) = (cur ++ x) :: l.
Proof.
  induction 1 as [|y l Hy Hl IH]; intros x cur Hx.
  - simpl. rewrite <- (string_app_nil_r x) at 1.
    now rewrite (split_go_piece " " x Hx).
  - change (join ", " (x :: y :: l)) with (x ++ ", " ++ join ", " (y :: l)).
    rewrite (split_go_piece " " x Hx).
    change (", " ++ join ", " (y :: l))
      with (String "," (String " " (join ", " (y :: l)))).
    cbn [split_go String.prefix String.length Nat.sub].
    destruct (ascii_dec "," ","); [|congruence].
    destruct (ascii_dec " " " "); [|congruence].
    rewrite prefix_nil. f_equal.
    rewrite (IH y "" Hy). reflexivity.
Qed.

(** The pieces [split] on "," returns have no comma. *)
Lemma split_go_comma_free (s : string) :
  forall cur, comma_free cur = true ->
    List.Forall (fun e => comma_free e = true) (split_go "," 0 cur s).
Proof.
  induction s as [|c s IH]; intros cur Hcur.
  - repeat constructor. exact Hcur.
  - cbn [split_go String.prefix].
    destruct (ascii_dec "," c) as [<-|Hne].
    + rewrite prefix_nil. constructor; [exact Hcur | now apply IH].
    + apply IH. rewrite comma_free_app, Hcur, comma_free_cons. simpl.
      destruct (Ascii.eqb_spec c ","); [congruence | reflexivity].
Qed.

(** ** Skill extraction: further properties *)

Lemma prefix_app (sub s : string) :
  String.prefix sub s = true <-> exists post, s = sub ++ post.
Proof.
  revert s. induction sub as [|a sub IH]; intros s.
  - rewrite prefix_nil. split; [intros _; now exists s | reflexivity].
  - destruct s as [|b s]; cbn [String.prefix].
    + split; [discriminate | intros [post E]; discriminate].
    + destruct (ascii_dec a b) as [<-|Hne].
      * rewrite IH. split; intros [post E]; exists post.
        -- now rewrite string_app_cons, E.
        -- rewrite string_app_cons in E. now injection E.
      * split; [discriminate|]. intros [post E].
        rewrite string_app_cons in E. injection E as E1 _. congruence.
Qed.

(** [sub in s] holds exactly when [s] is [sub] between two strings. *)
Lemma contains_app (sub s : string) :
  contains sub s = true <-> exists pre post, s = pre ++ sub ++ post.
Proof.
  induction s as [|c s IH]; cbn [contains].
  - rewrite orb_false_r, prefix_app. split.
    + intros [post E]. now exists "", post.
    + intros (pre & post & E). destruct pre; [now exists post|discriminate].
  - rewrite orb_true_iff, prefix_app, IH. split.
    + intros [[post E]|(pre & post & E)].
      * now exists "", post.
      * exists (String c pre), post. now rewrite string_app_cons, E.
    + intros (pre & post & E). destruct pre as [|c' pre].
      * left. now exists post.
      * right. rewrite string_app_cons in E. injection E as _ E.
        now exists pre, post.
Qed.

Lemma contains_trans (a b s : string) :
  contains a b = true -> contains b s = true -> contains a s = true.
Proof.
  rewrite !contains_app.
  intros (p1 & q1 & ->) (p2 & q2 & ->).
  exists (p2 ++ p1), (q1 ++ q2). now rewrite !string_app_assoc.
Qed.

Lemma eqb_lower_char_comma (c : ascii) :
  Ascii.eqb (lower_char c) "," = Ascii.eqb c ",".
Proof. destruct c as [[] [] [] [] [] [] [] []]; reflexivity. Qed.

Lemma comma_free_lower (s : string) : comma_free (lower s) = comma_free s.
Proof.
  induction s as [|c s IH]; [reflexivity|]. cbn [lower].
  now rewrite !comma_free_cons, eqb_lower_char_comma, IH.
Qed.

Lemma split_join (l : list string) :
  l <> [] -> List.Forall (fun e => comma_free e = true) l ->
  split ", " (join ", " l) = l.
Proof.
  intros Hne Hall. destruct l as [|x l]; [contradiction|].
  apply List.Forall_cons_iff in Hall as [Hx Hall].
  unfold split. now rewrite (split_commaspace_join l Hall x "" Hx).
Qed.

Section ExtractMore.
Import SkillExtractor.

Lemma found_skills_In (text e : string) :
  In e (found_skills text) <->
  In e COMMON_TECH_SKILLS /\ contains e (lower text) = true.
Proof.
  unfold found_skills.
  exact (filter_In (fun skill => contains skill (lower text)) e
                   COMMON_TECH_SKILLS).
Qed.

(** The vocabulary scan looks for substrings: when it reports a skill it
    also reports every vocabulary entry contained in that skill, as "java"
    in "javascript", "git" in "github" or "go" in "django". *)
Theorem found_skills_substring_closed (text a b : string) :
  In a COMMON_TECH_SKILLS -> In b (found_skills text) ->
  contains a b = true -> In a (found_skills text).
Proof.
  intros Ha Hb Hab.
  apply found_skills_In in Hb as [_ Hb]. apply found_skills_In.
  split; [exact Ha|]. now apply (contains_trans a b).
Qed.

Lemma vocabulary_comma_free :
  List.Forall (fun e => comma_free e = true) COMMON_TECH_SKILLS.
Proof.
  apply List.Forall_forall. intros e He.
  assert (H : forallb comma_free COMMON_TECH_SKILLS = true)
    by (vm_compute; reflexivity).
  rewrite forallb_forall in H. now apply H.
Qed.

Lemma found_skills_comma_free (text : string) :
  List.Forall (fun e => comma_free e = true) (found_skills text).
Proof.
  apply List.Forall_forall. intros e He.
  apply found_skills_In in He as [He _].
  pose proof vocabulary_comma_free as H.
  rewrite List.Forall_forall in H. now apply H.
Qed.

Lemma default_skills_comma_free :
  List.Forall (fun e => comma_free e = true) DEFAULT_SKILLS.
Proof.
  apply List.Forall_forall. intros e He.
  assert (H : forallb comma_free DEFAULT_SKILLS = true)
    by (vm_compute; reflexivity).
  rewrite forallb_forall in H. now apply H.
Qed.

Lemma Forall_or_default (P : string -> Prop) (l l' d : list string) :
  List.Forall P l' -> List.Forall P d ->
  List.Forall P (match l with [] => d | _ :: _ => l' end).
Proof. intros Hl Hd. now destruct l. Qed.

Lemma fallback_skills_comma_free (text : string) :
  List.Forall (fun e => comma_free e = true) (fallback_skills text).
Proof.
  unfold fallback_skills.
  apply Forall_or_default;
    [apply found_skills_comma_free | apply default_skills_comma_free].
Qed.

Variable nlp : option (string -> result (list string)).
Variable order : hash_order.

Lemma extract_skills_list_nonempty (text : string) :
  extract_skills_list nlp order text <> [].
Proof.
  unfold extract_skills_list.
  destruct (model_skills nlp order text) as [skills|] eqn:E.
  - now apply model_skills_nonempty in E.
  - apply fallback_skills_nonempty.
Qed.

Lemma extract_skills_list_comma_free (text : string) :
  (forall run ents, nlp = Some run -> run text = Ok ents ->
                    List.Forall (fun e => comma_free e = true) ents) ->
  List.Forall (fun e => comma_free e = true) (extract_skills_list nlp order text).
Proof.
  intros Hents.
  unfold extract_skills_list.
  destruct (model_skills nlp order text) as [skills|] eqn:E;
    [|apply fallback_skills_comma_free].
  apply model_skills_from_ents in E as (run & ents & Hn & Hr & ->).
  specialize (Hents run ents Hn Hr).
  apply List.Forall_forall. intros t Ht.
  apply list_elem_of_In, list_set_elem, list_elem_of_In, in_map_iff in Ht
    as (e & <- & He).
  rewrite comma_free_lower. rewrite List.Forall_forall in Hents.
  now apply Hents.
Qed.

(** Splitting the string [extract_skills] returns at ", " gives back the
    skills it joined, as long as no entity text of the model has a comma. *)
Theorem extract_skills_split (text : string) :
  (forall run ents, nlp = Some run -> run text = Ok ents ->
                    List.Forall (fun e => comma_free e = true) ents) ->
  split ", " (extract_skills nlp order text) =
  extract_skills_list nlp order text.
Proof.
  intros Hents. unfold extract_skills. apply split_join.
  - apply extract_skills_list_nonempty.
  - now apply extract_skills_list_comma_free.
Qed.

Lemma default_skills_in_vocabulary :
  List.Forall (fun s => In s COMMON_TECH_SKILLS) DEFAULT_SKILLS.
Proof.
  assert (H : forallb (fun s => existsb (String.eqb s) COMMON_TECH_SKILLS)
                      DEFAULT_SKILLS = true) by (vm_compute; reflexivity).
  apply List.Forall_forall. intros s Hs.
  rewrite forallb_forall in H. specialize (H s Hs).
  apply existsb_exists in H as (t & Ht & E).
  apply String.eqb_eq in E. now subst.
Qed.

Lemma fallback_skills_in_vocabulary (text : string) :
  List.Forall (fun s => In s COMMON_TECH_SKILLS) (fallback_skills text).
Proof.
  unfold fallback_skills. apply Forall_or_default.
  - apply List.Forall_forall. intros s Hs. now apply found_skills_In in Hs.
  - apply default_skills_in_vocabulary.
Qed.

Lemma split_extract_skills_fallback (text : string) :
  split ", " (extract_skills None order text) = fallback_skills text.
Proof.
  unfold extract_skills. apply split_join.
  - apply fallback_skills_nonempty.
  - apply fallback_skills_comma_free.
Qed.

End ExtractMore.

Lemma found_skills_substring_closed_witness :
  In "go" (SkillExtractor.found_skills "Django developer").
Proof.
  apply (found_skills_substring_closed "Django developer" "go" "django").
  - do 61 right. now left.
  - vm_compute. tauto.
  - reflexivity.
Defined.

Lemma extract_skills_split_witness :
  split ", " (SkillExtractor.extract_skills (Some SkillExtractor.demo_ner)
                insertion_order "Python and SQL") =
  SkillExtractor.extract_skills_list (Some SkillExtractor.demo_ner)
    insertion_order "Python and SQL".
Proof.
  apply extract_skills_split.
  intros run ents [= <-] [= <-]. repeat constructor.
Defined.
(** ** What [extract_skills] returns *)

Lemma lower_app (a b : string) : lower (a ++ b) = lower a ++ lower b.
Proof.
  induction a as [|c a IH]; [now rewrite !string_app_nil_l|].
  rewrite string_app_cons. cbn [lower]. rewrite string_app_cons. now rewrite IH.
Qed.

Lemma lower_join (l : list string) :
  List.Forall (fun t => lower t = t) l -> lower (join ", " l) = join ", " l.
Proof.
  unfold join. induction l as [|x l IH]; intros H; [reflexivity|].
  apply List.Forall_cons_iff in H as [Hx Hl].
  destruct l as [|y l]; [exact Hx|].
  cbn [String.concat] in *. rewrite !lower_app, Hx, (IH Hl). reflexivity.
Qed.

Lemma split_go_lower (sep s : string) :
  forall skip cur,
    lower cur = cur -> lower s = s ->
    List.Forall (fun t => lower t = t) (split_go sep skip cur s).
Proof.
  induction s as [|c s IH]; intros skip cur Hcur Hs.
  - cbn. now constructor.
  - cbn [lower] in Hs. injection Hs as Hc Hs.
    cbn [split_go]. destruct skip as [|k]; [|now apply IH].
    destruct (String.prefix sep (String c s)).
    + constructor; [exact Hcur | now apply IH].
    + apply IH; [|exact Hs].
      rewrite lower_app. cbn [lower]. now rewrite Hcur, Hc.
Qed.

Section ExtractClaim.
Import SkillExtractor.

Variable nlp : option (string -> result (list string)).
Variable order : hash_order.

Lemma extract_skills_list_lower (text : string) :
  List.Forall (fun t => lower t = t) (extract_skills_list nlp order text).
Proof.
  unfold extract_skills_list.
  destruct (model_skills nlp order text) as [skills|] eqn:E.
  - apply model_skills_from_ents in E as (run & ents & _ & _ & ->).
    apply List.Forall_forall. intros t Ht.
    apply list_elem_of_In, list_set_elem, list_elem_of_In, in_map_iff in Ht
      as (e & <- & _).
    apply lower_idem.
  - pose proof (fallback_skills_normalized text) as H.
    apply List.Forall_forall. intros t Ht.
    rewrite Forall_forall in H.
    exact (proj1 (H t (proj2 (list_elem_of_In _ _) Ht))).
Qed.

Lemma vocabulary_nonempty_entries :
  List.Forall (fun t => t <> "") COMMON_TECH_SKILLS.
Proof.
  assert (H : forallb (fun t => negb (String.eqb t "")) COMMON_TECH_SKILLS = true)
    by (vm_compute; reflexivity).
  apply List.Forall_forall. intros t Ht.
  rewrite forallb_forall in H. specialize (H t Ht).
  apply negb_true_iff, String.eqb_neq in H. exact H.
Qed.

(** C7 (as the code has it): [extract_skills] returns the join of a list
    of skills that is never empty, and the returned string and each of its
    tokens are lower-case. On the vocabulary path the tokens are the
    skills found, or the fixed default when none is found: entries of the
    vocabulary, not empty and with nothing to strip. On the model path the
    skills are the distinct entity texts in lower case, as the model
    reports them. *)
Theorem extract_skills_tokens (text : string) :
  let out := extract_skills nlp order text in
  extract_skills_list nlp order text <> [] /\
  lower out = out /\
  List.Forall (fun token => lower token = token) (split ", " out) /\
  (model_skills nlp order text = None ->
   out <> "" /\
   split ", " out = fallback_skills text /\
   List.Forall (fun token => In token COMMON_TECH_SKILLS /\ token <> "" /\
                             normalized token) (split ", " out) /\
   (found_skills text = [] ->
    out = "python, javascript, html, css, sql")) /\
  (forall skills, model_skills nlp order text = Some skills ->
   skills <> [] /\ out = join ", " skills /\
   exists run ents,
     nlp = Some run /\ run text = Ok ents /\
     Permutation skills (remove_dups (map lower ents))).
Proof.
  intros out.
  assert (Hlow : lower out = out)
    by (apply lower_join, extract_skills_list_lower).
  split; [apply extract_skills_list_nonempty|].
  split; [exact Hlow|].
  split; [now apply split_go_lower|].
  split.
  - intros Hm.
    assert (Hout : out = join ", " (fallback_skills text)).
    { subst out. unfold extract_skills, extract_skills_list. now rewrite Hm. }
    assert (Hsplit : split ", " out = fallback_skills text).
    { rewrite Hout. apply split_join;
        [apply fallback_skills_nonempty | apply fallback_skills_comma_free]. }
    assert (Hall : List.Forall
              (fun token => In token COMMON_TECH_SKILLS /\ token <> "" /\
                            normalized token) (fallback_skills text)).
    { pose proof (fallback_skills_in_vocabulary text) as Hv.
      pose proof (fallback_skills_normalized text) as Hn.
      pose proof vocabulary_nonempty_entries as He.
      rewrite List.Forall_forall in Hv, He. rewrite Forall_forall in Hn.
      apply List.Forall_forall. intros t Ht.
      split; [now apply Hv|]. split; [apply He; now apply Hv|].
      apply Hn. now apply list_elem_of_In. }
    split; [|split; [exact Hsplit|split]].
    + intros E. rewrite E in Hsplit. cbn in Hsplit.
      rewrite <- Hsplit in Hall.
      apply List.Forall_cons_iff in Hall as [(_ & Hne & _) _]. now apply Hne.
    + now rewrite Hsplit.
    + intros Hf. rewrite Hout. unfold fallback_skills. rewrite Hf. reflexivity.
  - intros skills Hm.
    split; [now apply (model_skills_nonempty nlp order text)|].
    split; [subst out; unfold extract_skills, extract_skills_list;
            now rewrite Hm|].
    apply model_skills_from_ents in Hm as (run & ents & Hn & Hr & ->).
    exists run, ents. split; [exact Hn|]. split; [exact Hr|].
    apply list_set_perm.
Qed.

End ExtractClaim.

Lemma extract_skills_tokens_witness :
  (SkillExtractor.extract_skills None insertion_order "We use Django" <> "" /\
   split ", " (SkillExtractor.extract_skills None insertion_order "We use Django")
     = SkillExtractor.fallback_skills "We use Django") /\
  (["python"; "sql"] <> [] /\
   SkillExtractor.extract_skills (Some SkillExtractor.demo_ner) insertion_order
     "Python and SQL" = join ", " ["python"; "sql"]).
Proof.
  split.
  - destruct (proj1 (proj2 (proj2 (proj2
        (extract_skills_tokens None insertion_order "We use Django"))))
        eq_refl) as (H1 & H2 & _).
    now split.
  - destruct (proj2 (proj2 (proj2 (proj2
        (extract_skills_tokens (Some SkillExtractor.demo_ner) insertion_order
           "Python and SQL"))))
        ["python"; "sql"] eq_refl) as (H1 & H2 & _).
    now split.
Defined.

(** C7 fails as stated: the model path does not strip. For a model that
    reports the entity " Python " the result is " python ", a token with a
    blank on either side. *)
Lemma extract_skills_keeps_entity_blanks :
  ~ (forall (nlp : option (string -> result (list string)))
            (order : hash_order) (text : string),
       List.Forall (fun token => strip token = token)
         (split ", " (SkillExtractor.extract_skills nlp order text))).
Proof.
  intros H.
  specialize (H (Some SkillExtractor.padded_ner) insertion_order "I know Python").
  assert (E : split ", " (SkillExtractor.extract_skills
                (Some SkillExtractor.padded_ner) insertion_order "I know Python")
              = [" python "]) by (vm_compute; reflexivity).
  rewrite E in H. apply List.Forall_cons_iff in H as [H _].
  vm_compute in H. discriminate.
Qed.


(** ** Job ranking *)

Section RankerFacts.
Import Ranker.
Local Open Scope R_scope.


Lemma dot_self_nonneg u : 0 <= dot u u.
Proof.
  induction u as [|x u IH]; simpl; [lra|].
  pose proof (Rle_0_sqr x) as H. unfold Rsqr in H. lra.
Qed.

Lemma dot_scale_l k u v : dot (map (fun x => x / k) u) v = dot u v / k.
Proof.
  revert v. induction u as [|x u IH]; intros [|y v]; simpl;
    try (unfold Rdiv; ring).
  rewrite IH. unfold Rdiv. ring.
Qed.

Lemma dot_scale_r k u v : dot u (map (fun x => x / k) v) = dot u v / k.
Proof.
  revert v. induction u as [|x u IH]; intros [|y v]; simpl;
    try (unfold Rdiv; ring).
  rewrite IH. unfold Rdiv. ring.
Qed.

Lemma norm_nonneg u : 0 <= norm u.
Proof. apply sqrt_pos. Qed.

Lemma norm_sqr u : norm u * norm u = dot u u.
Proof. apply sqrt_sqrt, dot_self_nonneg. Qed.

(** The product of a normalised non-zero row with itself is 1. *)
Lemma dot_normalize_self u :
  norm u <> 0 -> dot (l2_normalize u) (l2_normalize u) = 1.
Proof.
  intros Hn. unfold l2_normalize.
  destruct (Req_dec_T (norm u) 0) as [E|_]; [contradiction|].
  rewrite dot_scale_l, dot_scale_r, <- norm_sqr. now field.
Qed.

Lemma map_div_1 u : map (fun x => x / 1) u = u.
Proof.
  induction u as [|x u IH]; simpl; [reflexivity|].
  rewrite IH. f_equal. field.
Qed.

(** Normalising twice is normalising once. *)
Lemma l2_normalize_idem u : l2_normalize (l2_normalize u) = l2_normalize u.
Proof.
  destruct (Req_dec_T (norm u) 0) as [E|Hn].
  - unfold l2_normalize at 2. destruct (Req_dec_T (norm u) 0); [|contradiction].
    unfold l2_normalize. now destruct (Req_dec_T (norm u) 0).
  - assert (H1 : norm (l2_normalize u) = 1).
    { unfold norm at 1. rewrite dot_normalize_self by assumption. apply sqrt_1. }
    unfold l2_normalize at 1. rewrite H1.
    destruct (Req_dec_T 1 0) as [E|_]; [lra|]. apply map_div_1.
Qed.

Lemma idf_pos n d : (d <= n)%nat -> 0 < idf n d.
Proof.
  intros Hle. unfold idf.
  assert (Hd : 0 < INR (1 + d)) by (apply lt_0_INR; lia).
  assert (Hq : 1 <= INR (1 + n) / INR (1 + d)).
  { apply le_INR in Hle. rewrite !plus_INR, INR_1 in *.
    apply Rmult_le_reg_r with (r := 1 + INR d); [lra|].
    unfold Rdiv. rewrite Rmult_assoc, Rinv_l by lra. lra. }
  destruct Hq as [Hq|Hq].
  - pose proof (ln_increasing 1 _ Rlt_0_1 Hq) as H. rewrite ln_1 in H. lra.
  - rewrite <- Hq, ln_1. lra.
Qed.



Lemma l2_normalize_divisor u : l2_normalize u = map (fun x => x / divisor u) u.
Proof.
  unfold l2_normalize, divisor.
  destruct (Req_dec_T (norm u) 0); [now rewrite map_div_1 | reflexivity].
Qed.

Lemma dot_normalize u v :
  dot (l2_normalize u) (l2_normalize v) = dot u v / divisor u / divisor v.
Proof.
  rewrite !l2_normalize_divisor, dot_scale_l, dot_scale_r.
  unfold Rdiv. ring.
Qed.

Lemma pair_score_raw docs a b :
  pair_score docs a b =
  dot (l2_normalize (tfidf_row (length docs) (term_stats docs a)))
      (l2_normalize (tfidf_row (length docs) (term_stats docs b))).
Proof. unfold pair_score, tfidf_vector. now rewrite !l2_normalize_idem. Qed.

(** [recommended_jobs] computes a score for every listing, unless the
    frame has no row or the texts have no token. *)
Lemma similarity_scores_cases user_skills job_listings :
  let docs := user_skills :: map Skills job_listings in
  similarity_scores user_skills job_listings =
  match vocabulary docs, job_listings with
  | [], _ | _, [] => Raise ValueError
  | _, _ => Ok (map (fun r => pair_score docs user_skills (Skills r)) job_listings)
  end.
Proof.
  intros docs. unfold similarity_scores, fit_transform. fold docs.
  destruct (vocabulary docs) as [|t ts]; [reflexivity|].
  destruct job_listings as [|r rs]; [reflexivity|].
  subst docs. cbn [bind map firstn skipn cosine_similarity nth].
  do 2 f_equal. now rewrite !map_map.
Qed.

Lemma similarity_scores_empty user_skills :
  similarity_scores user_skills [] = Raise ValueError.
Proof.
  rewrite similarity_scores_cases. now destruct (vocabulary _).
Qed.

Lemma similarity_scores_ok user_skills job_listings scores :
  similarity_scores user_skills job_listings = Ok scores ->
  scores = map (fun r => pair_score (user_skills :: map Skills job_listings)
                           user_skills (Skills r)) job_listings.
Proof.
  rewrite similarity_scores_cases.
  destruct (vocabulary _); [discriminate|].
  destruct job_listings; [discriminate|]. now intros [= <-].
Qed.

Lemma similarity_scores_raise user_skills job_listings e :
  similarity_scores user_skills job_listings = Raise e -> e = ValueError.
Proof.
  rewrite similarity_scores_cases.
  destruct (vocabulary _); [now intros [= <-]|].
  destruct job_listings; [now intros [= <-]|discriminate].
Qed.

Lemma assign_scores_map (f : Job -> R) job_listings :
  assign_scores job_listings (map f job_listings) =
  map (fun r => set_score r (f r)) job_listings.
Proof.
  unfold assign_scores. induction job_listings as [|r rs IH]; simpl;
    [reflexivity | now rewrite IH].
Qed.



Lemma divisor_norm u : 0 < dot u u -> divisor u = norm u /\ 0 < norm u.
Proof.
  intros H. assert (Hn : 0 < norm u) by now apply sqrt_lt_R0.
  split; [|assumption]. unfold divisor.
  destruct (Req_dec_T (norm u) 0); [lra | reflexivity].
Qed.

Lemma example_stats :
  term_stats example_docs "python, sql" = [(0, 1); (1, 3); (1, 2)]%nat /\
  term_stats example_docs "java" = [(1, 1); (0, 3); (0, 2)]%nat /\
  term_stats example_docs "python" = [(0, 1); (1, 3); (0, 2)]%nat.
Proof. repeat split; vm_compute; reflexivity. Qed.

Lemma example_scores :
  pair_score example_docs "python, sql" "python, sql" = 1 /\
  pair_score example_docs "python, sql" "java" = 0 /\
  0 < pair_score example_docs "python, sql" "python" < 1.
Proof.
  destruct example_stats as (Eu & Ej & Ep).
  rewrite !pair_score_raw, Eu, Ej, Ep.
  change (length example_docs) with 4%nat.
  cbn [tfidf_row map fst snd].
  change (INR 0) with 0. change (INR 1) with 1.
  pose proof (idf_pos 4 3 ltac:(lia)) as Ha.
  pose proof (idf_pos 4 2 ltac:(lia)) as Hb.
  set (a := idf 4 3) in *. set (b := idf 4 2) in *. set (c := idf 4 1).
  set (u := [0 * c; 1 * a; 1 * b]).
  set (w := [0 * c; 1 * a; 0 * b]).
  set (v := [1 * c; 0 * a; 0 * b]).
  assert (Huv : dot u v = 0) by (subst u v; cbn [dot]; ring).
  assert (Huu : dot u u = a * a + b * b) by (subst u; cbn [dot]; ring).
  assert (Hww : dot w w = a * a) by (subst w; cbn [dot]; ring).
  assert (Huw : dot u w = a * a) by (subst u w; cbn [dot]; ring).
  destruct (divisor_norm u) as [Du Nu]; [rewrite Huu; nra|].
  destruct (divisor_norm w) as [Dw Nw]; [rewrite Hww; nra|].
  pose proof (norm_sqr u) as Su. pose proof (norm_sqr w) as Sw.
  rewrite Huu in Su. rewrite Hww in Sw.
  repeat split.
  - apply dot_normalize_self. lra.
  - rewrite dot_normalize, Huv. unfold Rdiv. ring.
  - rewrite dot_normalize, Huw, Du, Dw.
    apply Rdiv_lt_0_compat; [apply Rdiv_lt_0_compat|]; nra.
  - rewrite dot_normalize, Huw, Du, Dw.
    assert (Ew : norm w = a) by nra.
    assert (Lu : a < norm u) by nra.
    rewrite Ew.
    apply Rmult_lt_reg_r with (r := norm u * a); [nra|].
    replace (a * a / norm u / a * (norm u * a)) with (a * a) by (field; lra).
    nra.
Qed.



#[local] Instance by_score_desc_trans : Transitive by_score_desc.
Proof. unfold by_score_desc. intros a b c H1 H2. lra. Qed.

#[local] Instance Rge_flip_trans : Transitive (fun x y : R => y <= x).
Proof. intros a b c H1 H2. lra. Qed.

#[local] Instance Rge_flip_antisym : AntiSymm (=) (fun x y : R => y <= x).
Proof. intros a b H1 H2. lra. Qed.

Lemma score_set_score r s : score (set_score r s) = s.
Proof. reflexivity. Qed.

(** In a sorted frame a row is never followed by one with a higher score. *)
Lemma sorted_desc_pairs (sorted l1 l2 l3 : list Job) (a b : Job) :
  Sorted by_score_desc sorted ->
  sorted = (l1 ++ a :: l2 ++ b :: l3)%list -> score b <= score a.
Proof.
  intros Hs ->. apply Sorted_StronglySorted in Hs; [|apply by_score_desc_trans].
  induction l1 as [|x l1 IH]; simpl in Hs.
  - apply StronglySorted_inv in Hs as [_ Hall].
    rewrite List.Forall_forall in Hall. apply Hall.
    apply in_or_app. right. now left.
  - apply StronglySorted_inv in Hs as [Hs _]. now apply IH.
Qed.

(** Two sorted arrangements of the same rows carry the same scores in the
    same positions. *)
Lemma sorted_desc_scores_unique (l1 l2 : list Job) :
  Permutation l1 l2 ->
  Sorted by_score_desc l1 -> Sorted by_score_desc l2 ->
  map score l1 = map score l2.
Proof.
  intros Hp H1 H2.
  apply (Sorted_unique (fun x y : R => y <= x)).
  - apply (Sorted_fmap score by_score_desc); [|assumption]. now intros a b.
  - apply (Sorted_fmap score by_score_desc); [|assumption]. now intros a b.
  - now apply Permutation_map.
Qed.



Lemma recommended_jobs_ok_inv user_skills job_listings sorted :
  recommended_jobs user_skills job_listings (Ok sorted) ->
  let docs := user_skills :: map Skills job_listings in
  Permutation
    (map (fun r => set_score r (pair_score docs user_skills (Skills r)))
         job_listings) sorted /\
  Sorted by_score_desc sorted.
Proof.
  intros H. inversion H as [|scores sorted' Hs [Hp Hsorted]]; subst.
  apply similarity_scores_ok in Hs. subst scores.
  rewrite assign_scores_map in Hp. now split.
Qed.

(** The frame returned by [recommended_jobs] is a rearrangement of the
    scored listings in which no row is followed by a row with a higher
    score; listings with equal skill strings carry equal scores; and the
    sequence of scores is the same in every frame the sort may return.
    The order of rows with equal scores is left to the sort. *)
Theorem recommended_jobs_sorted_by_score user_skills job_listings sorted :
  recommended_jobs user_skills job_listings (Ok sorted) ->
  (exists scores,
      similarity_scores user_skills job_listings = Ok scores /\
      Permutation (assign_scores job_listings scores) sorted) /\
  (forall (l1 l2 l3 : list Job) (a b : Job),
      sorted = (l1 ++ a :: l2 ++ b :: l3)%list -> score b <= score a) /\
  (forall a b, In a sorted -> In b sorted ->
               Skills a = Skills b -> score a = score b) /\
  (forall sorted', recommended_jobs user_skills job_listings (Ok sorted') ->
                   map score sorted' = map score sorted).
Proof.
  intros H. pose proof (recommended_jobs_ok_inv _ _ _ H) as [Hp Hs].
  cbv zeta in Hp. repeat split.
  - inversion H as [|scores sorted' Hsc [Hp' _]]; subst. now exists scores.
  - intros l1 l2 l3 a b E. now apply (sorted_desc_pairs sorted l1 l2 l3).
  - intros a b Ha Hb E.
    apply (Permutation_in _ (Permutation_sym Hp)), in_map_iff in Ha
      as (ra & <- & _).
    apply (Permutation_in _ (Permutation_sym Hp)), in_map_iff in Hb
      as (rb & <- & _).
    simpl in E. rewrite !score_set_score. now rewrite E.
  - intros sorted' H'.
    pose proof (recommended_jobs_ok_inv _ _ _ H') as [Hp' Hs'].
    cbv zeta in Hp'. apply sorted_desc_scores_unique; [|assumption..].
    now rewrite <- Hp', Hp.
Qed.

Lemma example_similarity_scores (r1 r2 r3 : Job) :
  Skills r1 = "python, sql" -> Skills r2 = "java" -> Skills r3 = "python" ->
  similarity_scores "python, sql" [r1; r2; r3] =
  Ok [pair_score example_docs "python, sql" "python, sql";
      pair_score example_docs "python, sql" "java";
      pair_score example_docs "python, sql" "python"].
Proof.
  intros E1 E2 E3. rewrite similarity_scores_cases.
  cbn [map]. rewrite E1, E2, E3. fold example_docs.
  replace (vocabulary example_docs) with ["java"; "python"; "sql"]
    by (vm_compute; reflexivity).
  reflexivity.
Qed.

(** C2: for three listings asking for "python, sql", "java" and "python"
    and the user skills "python, sql", every frame [recommended_jobs] may
    return has the first listing first with score 1, the third listing
    second with a score strictly between 0 and 1, and the second listing
    last with score 0. *)
Theorem ranking_example (r1 r2 r3 : Job) (out : result (list Job)) :
  Skills r1 = "python, sql" -> Skills r2 = "java" -> Skills r3 = "python" ->
  recommended_jobs "python, sql" [r1; r2; r3] out ->
  exists s3, 0 < s3 < 1 /\
             out = Ok [set_score r1 1; set_score r3 s3; set_score r2 0].
Proof.
  intros E1 E2 E3 H.
  pose proof (example_similarity_scores r1 r2 r3 E1 E2 E3) as Hsc.
  destruct example_scores as (S1 & S2 & S3).
  rewrite S1, S2 in Hsc.
  set (s3 := pair_score example_docs "python, sql" "python") in *.
  exists s3. split; [exact S3|].
  inversion H as [e He|scores sorted Hs [Hp Hsorted]]; subst.
  - rewrite Hsc in He. discriminate.
  - rewrite Hsc in Hs. injection Hs as <-. f_equal.
    cbn [assign_scores combine map fst snd] in Hp.
    apply (@Sorted_unique_strong _ by_score_desc by_score_desc_trans); [|assumption| |rewrite <- Hp; apply perm_skip, perm_swap].
    + intros x1 x2 Hx1 Hx2 Ha Hb. unfold by_score_desc in Ha, Hb.
      rewrite <- Hp in Hx1.
      apply list_elem_of_In in Hx1, Hx2. simpl in Hx1, Hx2.
      destruct Hx1 as [<-|[<-|[<-|[]]]], Hx2 as [<-|[<-|[<-|[]]]];
        rewrite ?score_set_score in Ha, Hb; try reflexivity; lra.
    + repeat constructor; unfold by_score_desc; rewrite !score_set_score; lra.
Qed.

Lemma ranking_example_admissible :
  recommended_jobs "python, sql" three_listings
    (Ok [set_score (listing 0 "python, sql") 1;
         set_score (listing 2 "python")
                   (pair_score example_docs "python, sql" "python");
         set_score (listing 1 "java") 0]).
Proof.
  destruct example_scores as (S1 & S2 & S3).
  eapply recommended_sorted.
  - apply (example_similarity_scores (listing 0 "python, sql")
             (listing 1 "java") (listing 2 "python")); reflexivity.
  - rewrite S1, S2. split.
    + cbn [assign_scores combine map fst snd]. apply perm_skip, perm_swap.
    + repeat constructor; rewrite !score_set_score; lra.
Qed.

(** C8, at the frame without rows: [recommended_jobs] does not return a
    frame; the call raises [ValueError]. *)
Theorem recommended_jobs_empty_raises user_skills out :
  recommended_jobs user_skills [] out -> out = Raise ValueError.
Proof.
  intros H. inversion H as [e He|scores sorted Hs _]; subst.
  - now rewrite similarity_scores_empty in He; injection He as <-.
  - rewrite similarity_scores_empty in Hs. discriminate.
Qed.

End RankerFacts.

Lemma ranking_example_witness :
  exists s3, (0 < s3 < 1)%R /\
    Ok [Ranker.set_score (Ranker.listing 0 "python, sql") 1%R;
        Ranker.set_score (Ranker.listing 2 "python")
          (Ranker.pair_score Ranker.example_docs "python, sql" "python");
        Ranker.set_score (Ranker.listing 1 "java") 0%R] =
    Ok [Ranker.set_score (Ranker.listing 0 "python, sql") 1%R;
        Ranker.set_score (Ranker.listing 2 "python") s3;
        Ranker.set_score (Ranker.listing 1 "java") 0%R].
Proof.
  apply (ranking_example (Ranker.listing 0 "python, sql")
           (Ranker.listing 1 "java") (Ranker.listing 2 "python"));
    [reflexivity | reflexivity | reflexivity | apply ranking_example_admissible].
Defined.

Lemma recommended_jobs_empty_raises_witness :
  Ranker.recommended_jobs "python, sql" [] (Raise ValueError) /\
  (Raise ValueError : result (list Ranker.Job)) = Raise ValueError.
Proof.
  assert (H : Ranker.recommended_jobs "python, sql" [] (Raise ValueError))
    by (apply Ranker.recommended_raise, similarity_scores_empty).
  split; [exact H | exact (recommended_jobs_empty_raises "python, sql" _ H)].
Defined.

Lemma recommended_jobs_sorted_by_score_witness :
  exists scores,
    Ranker.similarity_scores "python, sql" Ranker.three_listings = Ok scores /\
    Permutation (Ranker.assign_scores Ranker.three_listings scores)
      [Ranker.set_score (Ranker.listing 0 "python, sql") 1%R;
       Ranker.set_score (Ranker.listing 2 "python")
         (Ranker.pair_score Ranker.example_docs "python, sql" "python");
       Ranker.set_score (Ranker.listing 1 "java") 0%R].
Proof.
  exact (proj1 (recommended_jobs_sorted_by_score "python, sql"
                  Ranker.three_listings _ ranking_example_admissible)).
Defined.

(** ** Job ranking: further properties *)

Section RankerMore.
Import Ranker.
Local Open Scope R_scope.

(** The Cauchy-Schwarz inequality for [dot]. *)
Lemma dot_cauchy_schwarz (u v : list R) :
  dot u v * dot u v <= dot u u * dot v v.
Proof.
  revert v. induction u as [|x u IH]; intros v.
  { simpl. lra. }
  destruct v as [|y v].
  { simpl. lra. }
  simpl. specialize (IH v).
  pose proof (dot_self_nonneg u) as Ha. pose proof (dot_self_nonneg v) as Hb.
  set (a := dot u u) in *. set (b := dot v v) in *. set (d := dot u v) in *.
  assert (H2 : 2 * (x * y * d) <= x * x * b + y * y * a).
  { destruct (Rle_or_lt (2 * (x * y * d)) (x * x * b + y * y * a)) as [H|H];
      [exact H | exfalso].
    assert (H0 : 0 <= x * x * b + y * y * a) by nra.
    assert (H1 : (x * x * b + y * y * a) * (x * x * b + y * y * a)
                 < (2 * (x * y * d)) * (2 * (x * y * d))) by nra.
    assert (H3 : 0 <= (x * x * b - y * y * a) * (x * x * b - y * y * a))
      by apply Rle_0_sqr.
    assert (H4 : 0 <= (x * y) * (x * y) * (a * b - d * d)).
    { apply Rmult_le_pos; [apply Rle_0_sqr | lra]. }
    nra. }
  nra.
Qed.

Lemma dot_le_norms (u v : list R) : dot u v <= norm u * norm v.
Proof.
  pose proof (dot_cauchy_schwarz u v) as H.
  pose proof (norm_sqr u) as Hu. pose proof (norm_sqr v) as Hv.
  pose proof (norm_nonneg u) as Nu. pose proof (norm_nonneg v) as Nv.
  destruct (Rle_or_lt (dot u v) (norm u * norm v)) as [Hle|Hlt]; [exact Hle|].
  exfalso.
  assert (0 <= norm u * norm v) by nra.
  assert ((norm u * norm v) * (norm u * norm v) < dot u v * dot u v) by nra.
  nra.
Qed.

Lemma dot_nonneg (u v : list R) :
  List.Forall (fun x => 0 <= x) u -> List.Forall (fun x => 0 <= x) v ->
  0 <= dot u v.
Proof.
  intros Hu. revert v. induction Hu as [|x u Hx Hu IH]; intros v Hv;
    [simpl; lra|].
  destruct Hv as [|y v Hy Hv]; simpl; [lra|].
  specialize (IH v Hv). nra.
Qed.

Lemma divisor_pos (u : list R) : 0 < divisor u.
Proof.
  unfold divisor. pose proof (norm_nonneg u).
  destruct (Req_dec_T (norm u) 0); lra.
Qed.

(** The product of two normalised rows with entries that are not negative
    lies between 0 and 1. *)
Lemma dot_normalize_range (u v : list R) :
  List.Forall (fun x => 0 <= x) u -> List.Forall (fun x => 0 <= x) v ->
  0 <= dot (l2_normalize u) (l2_normalize v) <= 1.
Proof.
  intros Hu Hv. rewrite dot_normalize.
  pose proof (dot_nonneg u v Hu Hv) as H0.
  pose proof (dot_le_norms u v) as H1.
  pose proof (divisor_pos u) as Du. pose proof (divisor_pos v) as Dv.
  pose proof (norm_nonneg u) as Nu. pose proof (norm_nonneg v) as Nv.
  split.
  - apply Rmult_le_pos; [apply Rmult_le_pos|]; try lra;
      left; now apply Rinv_0_lt_compat.
  - assert (Hd : dot u v <= divisor u * divisor v).
    { unfold divisor in *.
      destruct (Req_dec_T (norm u) 0) as [Eu|Eu];
        destruct (Req_dec_T (norm v) 0) as [Ev|Ev];
        try rewrite Eu in *; try rewrite Ev in *; nra. }
    apply Rmult_le_reg_r with (r := divisor u * divisor v); [nra|].
    replace (dot u v / divisor u / divisor v * (divisor u * divisor v))
      with (dot u v) by (field; lra).
    lra.
Qed.

Lemma df_le (t : string) (docs : list string) : (df t docs <= length docs)%nat.
Proof.
  unfold df. induction docs as [|d docs IH]; simpl; [lia|].
  destruct (existsb (String.eqb t) (tokenize d)); simpl; lia.
Qed.

Lemma tfidf_row_stats (docs : list string) (doc : string) :
  tfidf_row (length docs) (term_stats docs doc) =
  map (fun t => INR (tf t doc) * idf (length docs) (df t docs)) (vocabulary docs).
Proof. unfold tfidf_row, term_stats. now rewrite map_map. Qed.

Lemma tfidf_row_nonneg (docs : list string) (doc : string) :
  List.Forall (fun x => 0 <= x) (tfidf_row (length docs) (term_stats docs doc)).
Proof.
  rewrite tfidf_row_stats. apply List.Forall_forall. intros x Hin.
  apply in_map_iff in Hin as (t & <- & _).
  pose proof (idf_pos (length docs) (df t docs) (df_le t docs)).
  pose proof (pos_INR (tf t doc)). nra.
Qed.

Lemma pair_score_range (docs : list string) (a b : string) :
  0 <= pair_score docs a b <= 1.
Proof.
  rewrite pair_score_raw. apply dot_normalize_range; apply tfidf_row_nonneg.
Qed.

(** There is one similarity score for each listing, and no score is
    negative. *)
Theorem similarity_scores_nonnegative (user_skills : string)
  (job_listings : list Job) (scores : list R) :
  similarity_scores user_skills job_listings = Ok scores ->
  length scores = length job_listings /\
  List.Forall (fun s => 0 <= s) scores.
Proof.
  intros H. apply similarity_scores_ok in H. subst scores. split.
  - apply length_map.
  - apply List.Forall_forall. intros s Hin.
    apply in_map_iff in Hin as (r & <- & _). apply pair_score_range.
Qed.

Lemma vocabulary_In (docs : list string) (t : string) :
  In t (vocabulary docs) <-> exists d, In d docs /\ In t (tokenize d).
Proof.
  unfold vocabulary. rewrite <- list_elem_of_In.
  rewrite merge_sort_Permutation, elem_of_remove_dups, list_elem_of_In.
  rewrite in_concat. split.
  - intros (l & Hl & Ht). apply in_map_iff in Hl as (d & <- & Hd). eauto.
  - intros (d & Hd & Ht). exists (tokenize d). split; [|exact Ht].
    now apply in_map.
Qed.

Lemma dot_self_pos (u : list R) (e : R) : In e u -> e <> 0 -> 0 < dot u u.
Proof.
  induction u as [|x u IH]; intros Hin He; [destruct Hin|]. simpl.
  pose proof (dot_self_nonneg u) as Hu.
  destruct Hin as [->|Hin].
  - pose proof (Rle_0_sqr e) as Hs. unfold Rsqr in Hs.
    assert (0 < e * e) by (destruct (Rtotal_order e 0) as [?|[?|?]]; nra).
    lra.
  - specialize (IH Hin He). pose proof (Rle_0_sqr x) as Hs.
    unfold Rsqr in Hs. lra.
Qed.

Lemma dot_map_zero (f g : string -> R) (l : list string) :
  (forall t, In t l -> f t * g t = 0) -> dot (map f l) (map g l) = 0.
Proof.
  induction l as [|t l IH]; intros H; simpl; [reflexivity|].
  rewrite (H t (or_introl eq_refl)), IH; [lra|].
  intros t' Ht'. apply H. now right.
Qed.

(** A listing that shares no token with the user's skills scores 0. *)
Theorem similarity_score_disjoint_zero (user_skills : string)
  (job_listings : list Job) (scores : list R) (i : nat) (r : Job) (s : R) :
  similarity_scores user_skills job_listings = Ok scores ->
  job_listings !! i = Some r -> scores !! i = Some s ->
  (forall t, In t (tokenize user_skills) -> ~ In t (tokenize (Skills r))) ->
  s = 0.
Proof.
  intros H Hr Hs Hdis. apply similarity_scores_ok in H. subst scores.
  rewrite list_lookup_fmap, Hr in Hs. injection Hs as <-.
  set (docs := user_skills :: map Skills job_listings).
  rewrite pair_score_raw, !tfidf_row_stats.
  rewrite dot_normalize, dot_map_zero; [unfold Rdiv; ring|].
  intros t _.
  destruct (in_dec string_dec t (tokenize user_skills)) as [Hin|Hnin].
  - apply Hdis in Hin. apply (count_occ_not_In string_dec) in Hin.
    unfold tf at 2. rewrite Hin. simpl. ring.
  - apply (count_occ_not_In string_dec) in Hnin.
    unfold tf at 1. rewrite Hnin. simpl. ring.
Qed.

#[local] Instance by_score_desc_total : Total by_score_desc.
Proof.
  intros a b. unfold by_score_desc.
  destruct (Rle_or_lt (score b) (score a)); [now left | right; lra].
Qed.

Lemma recommended_jobs_total (user_skills : string) (job_listings : list Job) :
  exists r, recommended_jobs user_skills job_listings r.
Proof.
  destruct (similarity_scores user_skills job_listings) as [scores|e] eqn:E.
  - eexists. eapply recommended_sorted; [exact E|]. split.
    + symmetry. apply (merge_sort_Permutation by_score_desc).
    + apply (Sorted_merge_sort by_score_desc).
  - exists (Raise e). now apply recommended_raise.
Qed.

Lemma vocabulary_nil (docs : list string) :
  vocabulary docs = [] <-> forall d, In d docs -> tokenize d = [].
Proof.
  split.
  - intros E d Hd. destruct (tokenize d) as [|t ts] eqn:Et; [reflexivity|].
    assert (Hin : In t (vocabulary docs)).
    { apply vocabulary_In. exists d. split; [exact Hd | rewrite Et; now left]. }
    rewrite E in Hin. destruct Hin.
  - intros H. destruct (vocabulary docs) as [|t ts] eqn:E; [reflexivity|].
    assert (Hin : In t (vocabulary docs)) by (rewrite E; now left).
    apply vocabulary_In in Hin as (d & Hd & Ht). rewrite (H d Hd) in Ht.
    destruct Ht.
Qed.

Lemma similarity_scores_defined (user_skills : string)
  (job_listings : list Job) :
  job_listings <> [] ->
  vocabulary (user_skills :: map Skills job_listings) <> [] ->
  similarity_scores user_skills job_listings =
  Ok (map (fun r => pair_score (user_skills :: map Skills job_listings)
                      user_skills (Skills r)) job_listings).
Proof.
  intros Hl Hv. rewrite similarity_scores_cases.
  destruct (vocabulary (user_skills :: map Skills job_listings));
    [contradiction|].
  destruct job_listings; [contradiction | reflexivity].
Qed.

Lemma similarity_scores_undefined (user_skills : string)
  (job_listings : list Job) :
  job_listings = [] \/
  vocabulary (user_skills :: map Skills job_listings) = [] ->
  similarity_scores user_skills job_listings = Raise ValueError.
Proof.
  intros H. rewrite similarity_scores_cases. destruct H as [-> | ->].
  - now destruct (vocabulary _).
  - reflexivity.
Qed.

(** [recommended_jobs] returns a frame exactly when there is a listing and
    the user's skills or some listing's skills have a token of two or more
    word characters; otherwise the call raises [ValueError]. *)
Theorem recommended_jobs_returns (user_skills : string)
  (job_listings : list Job) :
  let docs := user_skills :: map Skills job_listings in
  (job_listings <> [] -> (exists d, In d docs /\ tokenize d <> []) ->
   (exists sorted, recommended_jobs user_skills job_listings (Ok sorted)) /\
   (forall e, ~ recommended_jobs user_skills job_listings (Raise e))) /\
  (job_listings = [] \/ (forall d, In d docs -> tokenize d = []) ->
   recommended_jobs user_skills job_listings (Raise ValueError) /\
   (forall sorted, ~ recommended_jobs user_skills job_listings (Ok sorted))).
Proof.
  intros docs. split.
  - intros Hne (d & Hd & Ht).
    assert (Hv : vocabulary docs <> []).
    { intros Ev. apply Ht. now apply (proj1 (vocabulary_nil docs) Ev). }
    pose proof (similarity_scores_defined user_skills job_listings Hne Hv) as Hs.
    split.
    + eexists. eapply recommended_sorted; [exact Hs|]. split.
      * symmetry. apply (merge_sort_Permutation by_score_desc).
      * apply (Sorted_merge_sort by_score_desc).
    + intros e H. inversion H as [e' He|]; subst. rewrite Hs in He.
      discriminate.
  - intros Hcase.
    assert (Hr : similarity_scores user_skills job_listings = Raise ValueError).
    { apply similarity_scores_undefined. destruct Hcase as [->|Hnone];
        [now left | right; now apply vocabulary_nil]. }
    split; [now apply recommended_raise|].
    intros sorted H. inversion H as [|scores sorted' Hs _]; subst.
    rewrite Hr in Hs. discriminate.
Qed.

End RankerMore.

Lemma similarity_scores_nonnegative_witness :
  length [1%R] = length [Ranker.listing 0 "python"] /\
  List.Forall (fun s => (0 <= s)%R) [1%R].
Proof.
  apply (similarity_scores_nonnegative "python" [Ranker.listing 0 "python"]
           [1%R]).
  rewrite similarity_scores_cases.
  replace (Ranker.vocabulary
             ("python" :: map Ranker.Skills [Ranker.listing 0 "python"]))
    with ["python"] by (vm_compute; reflexivity).
  cbn [map Ranker.Skills Ranker.listing]. do 2 f_equal.
  rewrite pair_score_raw. apply dot_normalize_self.
  replace (Ranker.term_stats ["python"; "python"] "python") with [(1, 2)]
    by (vm_compute; reflexivity).
  cbn [Ranker.tfidf_row map fst snd length].
  pose proof (idf_pos 2 2 ltac:(lia)) as Hidf.
  unfold Ranker.norm. intros E. apply sqrt_eq_0 in E; [|apply dot_self_nonneg].
  cbn [Ranker.dot] in E. change (INR 1) with 1%R in E. nra.
Defined.

Lemma similarity_score_disjoint_zero_witness :
  Ranker.similarity_scores "python, sql" Ranker.three_listings =
    Ok [1%R; 0%R; Ranker.pair_score Ranker.example_docs "python, sql" "python"] /\
  (0 = 0)%R.
Proof.
  assert (Hs : Ranker.similarity_scores "python, sql" Ranker.three_listings =
    Ok [1%R; 0%R; Ranker.pair_score Ranker.example_docs "python, sql" "python"]).
  { change Ranker.three_listings
      with [Ranker.listing 0 "python, sql"; Ranker.listing 1 "java";
            Ranker.listing 2 "python"].
    rewrite (example_similarity_scores (Ranker.listing 0 "python, sql")
               (Ranker.listing 1 "java") (Ranker.listing 2 "python")
               eq_refl eq_refl eq_refl).
    destruct example_scores as (-> & -> & _). reflexivity. }
  split; [exact Hs|].
  apply (similarity_score_disjoint_zero "python, sql" Ranker.three_listings
           _ 1 (Ranker.listing 1 "java") 0%R Hs eq_refl eq_refl).
  intros t Ht Hj. vm_compute in Ht, Hj.
  destruct Hj as [<-|[]]. destruct Ht as [Ht|[Ht|[]]]; discriminate.
Defined.

Lemma recommended_jobs_returns_witness :
  exists sorted,
    Ranker.recommended_jobs "python, sql" Ranker.three_listings (Ok sorted).
Proof.
  apply (proj1 (recommended_jobs_returns "python, sql" Ranker.three_listings)).
  - discriminate.
  - exists "python, sql". split; [now left | discriminate].
Defined.

(** ** Skill gap *)

Section GapFacts.
Import SkillGap.

Lemma slice_to_nonneg {A} (l : list A) (k : Z) :
  (0 <= k)%Z -> slice_to l k = firstn (Z.to_nat k) l.
Proof. intros H. unfold slice_to. now rewrite (proj2 (Z.leb_le 0 k) H). Qed.

Lemma slice_to_neg {A} (l : list A) (k : Z) :
  (k < 0)%Z -> slice_to l k = firstn (length l - Z.to_nat (- k)) l.
Proof.
  intros H. unfold slice_to.
  now rewrite (proj2 (Z.leb_gt 0 k) H).
Qed.

(** What the handler passes on for a value that is true and not an integer. *)
Lemma coerce_skill_count_non_int (v : pyval) :
  truthy v = true -> is_int v = false ->
  coerce_skill_count v =
  match int_ v with
  | Ok z => Ok (PyInt z)
  | Raise ValueError | Raise TypeError => Ok PyNone
  | Raise e => Raise e
  end.
Proof. intros Ht Hi. unfold coerce_skill_count. now rewrite Ht, Hi. Qed.

Variable order : hash_order.

(** C3 (as the code has it): [recommended_skills] returns the first ten
    missing skills when the limit is [None] and the first [k] for an
    integer limit [k >= 0], so none for 0. The handler turns a
    [skill_count] that is true and not an integer into an integer with
    [int], or into [None] when [int] raises [ValueError] or [TypeError],
    and then answers with the first [k] or the first ten skills. *)
Theorem recommended_skills_truncation (user_skills : string)
  (job_listings : list Ranker.Job) :
  let ranked := ranked_missing_skills order user_skills job_listings in
  recommended_skills order user_skills job_listings PyNone
    = Ok (firstn 10 ranked) /\
  (forall k, (0 <= k)%Z ->
     recommended_skills order user_skills job_listings (PyInt k)
       = Ok (firstn (Z.to_nat k) ranked)) /\
  (forall v, truthy v = true -> is_int v = false ->
     (forall z, int_ v = Ok z -> coerce_skill_count v = Ok (PyInt z)) /\
     (int_ v = Raise ValueError \/ int_ v = Raise TypeError ->
      coerce_skill_count v = Ok PyNone)) /\
  (forall (data : gmap string pyval) (v : pyval),
     data !! "skills" = Some (PyStr user_skills) ->
     data !! "skill_count" = Some v ->
     truthy v = true -> is_int v = false ->
     let answer :=
       RecommendedSkillsView_post order data (Ok job_listings) in
     (int_ v = Raise ValueError \/ int_ v = Raise TypeError ->
      answer = Response200 (firstn 10 ranked)) /\
     (forall z, int_ v = Ok z -> (0 <= z)%Z ->
      answer = Response200 (firstn (Z.to_nat z) ranked))).
Proof.
  intros ranked.
  assert (Hpos : forall k, (0 <= k)%Z ->
            recommended_skills order user_skills job_listings (PyInt k)
            = Ok (firstn (Z.to_nat k) ranked)).
  { intros k Hk. unfold recommended_skills. fold ranked.
    now rewrite slice_to_nonneg. }
  split; [reflexivity|]. split; [exact Hpos|]. split.
  - intros v Ht Hi. rewrite (coerce_skill_count_non_int v Ht Hi). split.
    + now intros z ->.
    + now intros [-> | ->].
  - intros data v Hs Hc Ht Hi answer. subst answer.
    unfold RecommendedSkillsView_post. rewrite Hs, Hc.
    change (default PyNone (Some v)) with v.
    rewrite (coerce_skill_count_non_int v Ht Hi). split.
    + now intros [-> | ->].
    + intros z -> Hz. now rewrite (Hpos z Hz).
Qed.

End GapFacts.

Lemma recommended_skills_truncation_witness :
  SkillGap.recommended_skills insertion_order "python" SkillGap.gap_listings
    (PyInt 1) = Ok ["sql"] /\
  SkillGap.coerce_skill_count (PyStr "1") = Ok (PyInt 1) /\
  SkillGap.coerce_skill_count (PyStr "many") = Ok PyNone /\
  SkillGap.RecommendedSkillsView_post insertion_order
    (<["skill_count" := PyStr "many"]> {["skills" := PyStr "python"]})
    (Ok SkillGap.gap_listings) = SkillGap.Response200 ["sql"; "java"].
Proof.
  pose proof (recommended_skills_truncation insertion_order "python"
                SkillGap.gap_listings) as (_ & Hpos & Hco & Hview).
  split; [exact (Hpos 1%Z ltac:(lia))|].
  split; [exact (proj1 (Hco (PyStr "1") eq_refl eq_refl) 1%Z eq_refl)|].
  split; [exact (proj2 (Hco (PyStr "many") eq_refl eq_refl)
                   (or_introl eq_refl))|].
  exact (proj1 (Hview (<["skill_count" := PyStr "many"]>
                         {["skills" := PyStr "python"]}) (PyStr "many")
                  eq_refl eq_refl eq_refl eq_refl) (or_introl eq_refl)).
Defined.

(** C3 fails as stated: with the limit 0 the result is empty, while the
    ten most frequent missing skills of the same listings are "sql" and
    "java". *)
Lemma recommended_skills_zero_is_not_default :
  ~ (forall (order : hash_order) user_skills job_listings k,
       (k <= 0)%Z ->
       SkillGap.recommended_skills order user_skills job_listings (PyInt k) =
       SkillGap.recommended_skills order user_skills job_listings PyNone).
Proof.
  intros H.
  specialize (H insertion_order "python" SkillGap.gap_listings 0%Z ltac:(lia)).
  vm_compute in H. discriminate.
Qed.

(** ** Skill gap: further properties *)

Section GapMore.
Import SkillGap SkillGapFacts.

Lemma insert_desc_perm (key : string -> nat) (x : string) (l : list string) :
  Permutation (insert_desc key x l) (x :: l).
Proof.
  induction l as [|y l IH]; simpl; [reflexivity|].
  destruct (key x <? key y)%nat; [|reflexivity].
  rewrite IH. apply perm_swap.
Qed.

Lemma sorted_desc_perm (key : string -> nat) (xs : list string) :
  Permutation (sorted_desc key xs) xs.
Proof.
  induction xs as [|x xs IH]; simpl; [reflexivity|].
  now rewrite insert_desc_perm, IH.
Qed.

Lemma insert_desc_sorted (key : string -> nat) (x : string) (l : list string) :
  Sorted (fun a b => key b <= key a) l ->
  Sorted (fun a b => key b <= key a) (insert_desc key x l).
Proof.
  induction 1 as [|y l Hs IH Hhd]; simpl; [repeat constructor|].
  destruct (Nat.ltb_spec (key x) (key y)) as [Hlt|Hge].
  - constructor; [exact IH|].
    destruct l as [|z l]; simpl; [constructor; lia|].
    destruct (key x <? key z)%nat; constructor; [|lia].
    now inversion Hhd.
  - constructor; [now constructor | constructor; lia].
Qed.

Lemma sorted_desc_sorted (key : string -> nat) (xs : list string) :
  Sorted (fun a b => key b <= key a) (sorted_desc key xs).
Proof.
  induction xs as [|x xs IH]; simpl; [constructor|].
  now apply insert_desc_sorted.
Qed.

Lemma Sorted_firstn {A} (R : A -> A -> Prop) (n : nat) (l : list A) :
  Sorted R l -> Sorted R (firstn n l).
Proof.
  revert l. induction n as [|n IH]; intros l Hs; [constructor|].
  destruct Hs as [|x l Hs Hhd]; [constructor|]. simpl.
  constructor; [now apply IH|].
  destruct Hhd as [|y l' Hr]; [destruct n; constructor|].
  destruct n; constructor. exact Hr.
Qed.

Lemma member_In (x : string) (l : list string) :
  member x l = true <-> In x l.
Proof.
  unfold member. rewrite existsb_exists. split.
  - intros (y & Hy & E). apply String.eqb_eq in E. now subst.
  - intros H. exists x. split; [exact H | apply String.eqb_refl].
Qed.

Variable order : hash_order.

Lemma ranked_missing_skills_perm (user_skills : string)
  (job_listings : list Ranker.Job) :
  Permutation
    (ranked_missing_skills order user_skills job_listings)
    (remove_dups
       (List.filter (fun skill => negb (member skill (split ", " user_skills)))
                    (all_job_skills job_listings))).
Proof.
  unfold ranked_missing_skills. cbv zeta.
  now rewrite sorted_desc_perm, (list_set_perm order).
Qed.

(** What [recommended_skills] returns is a front part of the ranked list. *)
Lemma recommended_skills_prefix (user_skills : string)
  (job_listings : list Ranker.Job) (limit : pyval) (skills : list string) :
  recommended_skills order user_skills job_listings limit = Ok skills ->
  exists n, skills = firstn n (ranked_missing_skills order user_skills job_listings).
Proof.
  unfold recommended_skills, slice_to.
  destruct limit as [|b|k|f|s|o]; try discriminate; intros [= <-].
  - now exists 10.
  - destruct (0 <=? Z.b2z b)%Z; eexists; reflexivity.
  - destruct (0 <=? k)%Z; eexists; reflexivity.
Qed.

(** Every skill [recommended_skills] returns is named in some listing and
    is not one of the user's skills, and none is returned twice. *)
Theorem recommended_skills_sound (user_skills : string)
  (job_listings : list Ranker.Job) (limit : pyval) (skills : list string) :
  recommended_skills order user_skills job_listings limit = Ok skills ->
  List.NoDup skills /\
  forall skill, In skill skills ->
    In skill (all_job_skills job_listings) /\
    ~ In skill (split ", " user_skills).
Proof.
  intros H. apply recommended_skills_prefix in H as [n ->].
  pose proof (ranked_missing_skills_perm user_skills job_listings) as Hp.
  split.
  - assert (Hnd : List.NoDup (ranked_missing_skills order user_skills job_listings)).
    { apply NoDup_ListNoDup. rewrite Hp. apply NoDup_remove_dups. }
    clear Hp. revert n.
    induction Hnd as [|x l Hx Hnd IH]; intros [|n]; simpl; try constructor.
    + intros Hin. apply Hx. now apply In_firstn in Hin.
    + apply IH.
  - intros skill Hin. apply In_firstn in Hin.
    apply list_elem_of_In in Hin. rewrite Hp in Hin.
    apply elem_of_remove_dups, list_elem_of_In, filter_In in Hin as [Hin Hm].
    split; [exact Hin|].
    intros Hu. apply member_In in Hu. rewrite Hu in Hm. discriminate.
Qed.

(** The skills are returned by non-increasing frequency in the listings. *)
Theorem recommended_skills_by_frequency (user_skills : string)
  (job_listings : list Ranker.Job) (limit : pyval) (skills : list string) :
  recommended_skills order user_skills job_listings limit = Ok skills ->
  Sorted (by_frequency_desc job_listings) skills.
Proof.
  intros H. apply recommended_skills_prefix in H as [n ->].
  apply Sorted_firstn. unfold ranked_missing_skills. cbv zeta.
  apply sorted_desc_sorted.
Qed.

End GapMore.

Section GapOrder.
Import SkillGap SkillGapFacts.

#[local] Instance by_frequency_desc_trans job_listings :
  Transitive (by_frequency_desc job_listings).
Proof. unfold by_frequency_desc. intros a b c H1 H2. lia. Qed.

(** When no two missing skills are equally frequent, the ranked list does
    not depend on the iteration order of the set of missing skills. *)
Theorem ranked_missing_skills_order_independent
  (order1 order2 : hash_order) (user_skills : string)
  (job_listings : list Ranker.Job) :
  (forall a b,
      In a (ranked_missing_skills order1 user_skills job_listings) ->
      In b (ranked_missing_skills order1 user_skills job_listings) ->
      frequency job_listings a = frequency job_listings b -> a = b) ->
  ranked_missing_skills order1 user_skills job_listings =
  ranked_missing_skills order2 user_skills job_listings.
Proof.
  intros Hinj.
  pose proof (ranked_missing_skills_perm order1 user_skills job_listings) as P1.
  pose proof (ranked_missing_skills_perm order2 user_skills job_listings) as P2.
  apply (@Sorted_unique_strong _ (by_frequency_desc job_listings)
           (by_frequency_desc_trans job_listings)).
  - intros a b Ha Hb Hab Hba. unfold by_frequency_desc in Hab, Hba.
    apply Hinj; [now apply list_elem_of_In| |lia].
    apply list_elem_of_In. now rewrite P1, <- P2.
  - unfold ranked_missing_skills. cbv zeta. apply sorted_desc_sorted.
  - unfold ranked_missing_skills. cbv zeta. apply sorted_desc_sorted.
  - now rewrite P1, <- P2.
Qed.

End GapOrder.

Lemma recommended_skills_sound_witness :
  List.NoDup ["sql"; "java"] /\
  forall skill, In skill ["sql"; "java"] ->
    In skill (SkillGapFacts.all_job_skills SkillGap.gap_listings) /\
    ~ In skill (split ", " "python").
Proof.
  exact (recommended_skills_sound insertion_order "python"
           SkillGap.gap_listings PyNone ["sql"; "java"] eq_refl).
Defined.

Lemma recommended_skills_by_frequency_witness :
  Sorted (SkillGapFacts.by_frequency_desc SkillGap.gap_listings) ["sql"; "java"].
Proof.
  exact (recommended_skills_by_frequency insertion_order "python"
           SkillGap.gap_listings PyNone ["sql"; "java"] eq_refl).
Defined.

Lemma ranked_missing_skills_order_independent_witness :
  SkillGap.ranked_missing_skills insertion_order "python" SkillGap.gap_listings =
  SkillGap.ranked_missing_skills reversed_order "python" SkillGap.gap_listings.
Proof.
  apply ranked_missing_skills_order_independent.
  intros a b Ha Hb. vm_compute in Ha, Hb.
  destruct Ha as [<-|[<-|[]]], Hb as [<-|[<-|[]]];
    vm_compute; congruence.
Defined.
(** ** The request handler around [recommended_skills] *)

Lemma int_of_string_raises (s : string) (e : exn) :
  SkillGap.int_of_string s = Raise e -> e = ValueError.
Proof.
  unfold SkillGap.int_of_string.
  destruct (match SkillGap.int_lstrip (SkillGap.int_rstrip s) with
            | String "+" ds => SkillGap.digits_value 0 false ds
            | String "-" ds =>
                option_map Z.opp (SkillGap.digits_value 0 false ds)
            | ds => SkillGap.digits_value 0 false ds
            end) as [z|].
  - destruct (_ <? _)%nat; [now intros [= <-] | discriminate].
  - now intros [= <-].
Qed.

(** What the handler's treatment of [skill_count] gives. *)
Lemma coerce_skill_count_cases (v : pyval) :
  match SkillGap.coerce_skill_count v with
  | Raise _ => SkillGapFacts.unusable_count v = true
  | Ok (PyNone | PyBool _ | PyInt _) => SkillGapFacts.unusable_count v = false
  | Ok _ => SkillGapFacts.unusable_count v = true
  end.
Proof.
  unfold SkillGap.coerce_skill_count.
  destruct v as [|b|z|f|s|b]; cbn [truthy is_int negb andb];
    rewrite ?andb_false_r; try reflexivity.
  - destruct f as [sg|sg| |sg m e]; reflexivity.
  - destruct s as [|c s]; [reflexivity|].
    cbn [String.eqb negb andb SkillGap.int_].
    destruct (SkillGap.int_of_string (String c s)) as [z|e] eqn:E;
      [reflexivity|].
    apply int_of_string_raises in E. now subst e.
  - destruct b; reflexivity.
Qed.

(** The handler answers 400 exactly when the request has no [skills] entry.
    For text skills and a readable listings file it answers 500 exactly
    when [skill_count] is the empty string, an empty array or object, a
    float zero or a float infinity; every other [skill_count], also text
    that is not a number, gives 200. *)
Theorem RecommendedSkillsView_post_status (order : hash_order)
  (data : gmap string pyval) (job_listings : result (list Ranker.Job)) :
  (SkillGap.RecommendedSkillsView_post order data job_listings
     = SkillGap.Response400 <-> data !! "skills" = None) /\
  (forall user_skills listings,
     data !! "skills" = Some (PyStr user_skills) ->
     job_listings = Ok listings ->
     let unusable :=
       SkillGapFacts.unusable_count (default PyNone (data !! "skill_count")) in
     (SkillGap.RecommendedSkillsView_post order data job_listings
        = SkillGap.Response500 <-> unusable = true) /\
     (unusable = false ->
      exists skills,
        SkillGap.RecommendedSkillsView_post order data job_listings
          = SkillGap.Response200 skills /\
        (length skills <= length (SkillGap.ranked_missing_skills
                                    order user_skills listings))%nat)).
Proof.
  split.
  - unfold SkillGap.RecommendedSkillsView_post.
    destruct (data !! "skills") as [v|]; [|tauto].
    split; [|discriminate].
    destruct (SkillGap.coerce_skill_count _) as [c|e];
      destruct job_listings as [l|e'], v; try discriminate.
    destruct (SkillGap.recommended_skills _ _ _ _); discriminate.
  - intros user_skills listings Hs -> unusable.
    unfold SkillGap.RecommendedSkillsView_post. rewrite Hs.
    pose proof (coerce_skill_count_cases
                  (default PyNone (data !! "skill_count"))) as Hc.
    fold unusable in Hc.
    unfold SkillGap.recommended_skills.
    destruct (SkillGap.coerce_skill_count _) as [[|b|z|f|s|b]|e];
      rewrite Hc.
    + split; [split; discriminate|].
      intros _. eexists. split; [reflexivity|]. rewrite length_take. lia.
    + split; [split; discriminate|].
      intros _. eexists. split; [reflexivity|].
      unfold slice_to. destruct (0 <=? Z.b2z b)%Z; (rewrite length_take; lia).
    + split; [split; discriminate|].
      intros _. eexists. split; [reflexivity|].
      unfold slice_to. destruct (0 <=? z)%Z; (rewrite length_take; lia).
    + split; [split; reflexivity | discriminate].
    + split; [split; reflexivity | discriminate].
    + split; [split; reflexivity | discriminate].
    + split; [split; reflexivity | discriminate].
Qed.

Lemma RecommendedSkillsView_post_status_witness :
  let data : gmap string pyval :=
    <["skill_count" := PyFloat (S754_infinity false)]>
      {["skills" := PyStr "python"]} in
  SkillGap.RecommendedSkillsView_post insertion_order data
    (Ok SkillGap.gap_listings) = SkillGap.Response500.
Proof.
  intros data.
  apply (proj2 (RecommendedSkillsView_post_status insertion_order data
                  (Ok SkillGap.gap_listings)) "python" SkillGap.gap_listings).
  - reflexivity.
  - reflexivity.
  - reflexivity.
Defined.


(** ** Certifications *)

Lemma lstrip_idem s : lstrip (lstrip s) = lstrip s.
Proof.
  induction s as [|c s IH]; simpl; [reflexivity|].
  destruct (is_space c) eqn:E; [exact IH|]. simpl. now rewrite E.
Qed.

Lemma rstrip_idem s : rstrip (rstrip s) = rstrip s.
Proof.
  induction s as [|c s IH]; simpl; [reflexivity|].
  destruct (is_space c && String.eqb (rstrip s) "") eqn:E; [reflexivity|].
  simpl. now rewrite IH, E.
Qed.

Lemma rstrip_lstrip s : rstrip (lstrip s) = lstrip (rstrip s).
Proof.
  induction s as [|c s IH]; simpl; [reflexivity|].
  destruct (is_space c) eqn:E; simpl.
  - rewrite IH. destruct (String.eqb (rstrip s) "") eqn:E';
      simpl; [now apply String.eqb_eq in E' as -> | now rewrite E].
  - now rewrite E.
Qed.

Lemma strip_idem s : strip (strip s) = strip s.
Proof.
  unfold strip. now rewrite rstrip_lstrip, rstrip_idem, lstrip_idem.
Qed.

Section CertFacts.
Import Certifications.

Variable coursera : string -> fetched.

(** The loop over the skills appends, skill by skill, the first three
    courses found, each with its skill. *)
Lemma collect_courses_flat_map (skills : list string) (courses : list Course) :
  collect_courses coursera skills courses =
  (courses ++
   flat_map (fun skill =>
               map (tagged skill)
                   (firstn 3 (search_coursera_for_skill coursera skill)))
            skills)%list.
Proof.
  revert courses. induction skills as [|skill skills IH]; intros courses; simpl.
  - now rewrite app_nil_r.
  - rewrite IH. now rewrite <- app_assoc.
Qed.

Lemma unique_by_title_app courses seen (acc : list Course) :
  unique_by_title courses seen acc =
  (acc ++ unique_by_title courses seen [])%list.
Proof.
  revert seen acc. induction courses as [|c cs IH]; intros seen acc; simpl.
  - now rewrite app_nil_r.
  - destruct (decide (course_title c ∈ seen)); [apply IH|].
    rewrite (IH _ (acc ++ [c])%list), (IH _ [c]).
    now rewrite <- app_assoc.
Qed.

Lemma unique_by_title_cons c cs seen :
  unique_by_title (c :: cs) seen [] =
  if decide (course_title c ∈ seen) then unique_by_title cs seen []
  else c :: unique_by_title cs ({[course_title c]} ∪ seen) [].
Proof.
  simpl. destruct (decide (course_title c ∈ seen)); [reflexivity|].
  now rewrite unique_by_title_app.
Qed.

Lemma unique_by_title_not_seen courses seen c :
  In c (unique_by_title courses seen []) -> course_title c ∉ seen.
Proof.
  revert seen. induction courses as [|c0 cs IH]; intros seen Hin.
  - destruct Hin.
  - rewrite unique_by_title_cons in Hin.
    destruct (decide (course_title c0 ∈ seen)) as [Hs|Hs]; [now apply IH|].
    destruct Hin as [<-|Hin]; [exact Hs|].
    apply IH in Hin. set_solver.
Qed.

Lemma unique_by_title_In courses seen c :
  In c (unique_by_title courses seen []) -> In c courses.
Proof.
  revert seen. induction courses as [|c0 cs IH]; intros seen Hin.
  - destruct Hin.
  - rewrite unique_by_title_cons in Hin.
    destruct (decide (course_title c0 ∈ seen)); [right; now apply (IH seen)|].
    destruct Hin as [<-|Hin]; [now left | right; now apply (IH _ Hin)].
Qed.

Lemma unique_by_title_NoDup courses seen :
  List.NoDup (map course_title (unique_by_title courses seen [])).
Proof.
  revert seen. induction courses as [|c0 cs IH]; intros seen.
  - constructor.
  - rewrite unique_by_title_cons.
    destruct (decide (course_title c0 ∈ seen)); [apply IH|].
    simpl. constructor; [|apply IH].
    intros Hin. apply in_map_iff in Hin as (c & Et & Hc).
    apply unique_by_title_not_seen in Hc. set_solver.
Qed.

Lemma unique_by_title_first courses seen c :
  In c (unique_by_title courses seen []) ->
  first_with_title (course_title c) courses = Some c.
Proof.
  revert seen. induction courses as [|c0 cs IH]; intros seen Hin.
  - destruct Hin.
  - rewrite unique_by_title_cons in Hin. unfold first_with_title. simpl.
    destruct (decide (course_title c0 ∈ seen)) as [Hs|Hs].
    + pose proof (unique_by_title_not_seen _ _ _ Hin) as Hc.
      destruct (String.eqb_spec (course_title c0) (course_title c)) as [E|_];
        [rewrite E in Hs; contradiction | now apply (IH seen)].
    + destruct Hin as [<-|Hin]; [now rewrite String.eqb_refl|].
      pose proof (unique_by_title_not_seen _ _ _ Hin) as Hc.
      destruct (String.eqb_spec (course_title c0) (course_title c)) as [E|_];
        [set_solver | now apply (IH _ Hin)].
Qed.

Lemma unique_by_title_complete courses seen c :
  In c courses -> course_title c ∉ seen ->
  In (course_title c) (map course_title (unique_by_title courses seen [])).
Proof.
  revert seen. induction courses as [|c0 cs IH]; intros seen Hin Hs.
  - destruct Hin.
  - rewrite unique_by_title_cons.
    destruct (decide (course_title c0 ∈ seen)) as [Hs0|Hs0].
    + destruct Hin as [->|Hin]; [contradiction | now apply IH].
    + simpl. destruct Hin as [->|Hin]; [now left|].
      destruct (String.eqb_spec (course_title c0) (course_title c)) as [E|Hne];
        [now left | right]. apply IH; [exact Hin | set_solver].
Qed.

Lemma filter_title_absent (out : list Course) (title : string) :
  ~ In title (map course_title out) ->
  List.filter (fun x => String.eqb (course_title x) title) out = [].
Proof.
  induction out as [|x out IH]; intros Hn; [reflexivity|]. simpl in *.
  destruct (String.eqb_spec (course_title x) title) as [E|_];
    [exfalso; apply Hn; now left | apply IH; tauto].
Qed.

Lemma NoDup_titles_filter (out : list Course) (c : Course) :
  List.NoDup (map course_title out) -> In c out ->
  List.filter (fun x => String.eqb (course_title x) (course_title c)) out = [c].
Proof.
  induction out as [|x out IH]; intros Hnd Hin; [destruct Hin|].
  simpl in Hnd. apply List.NoDup_cons_iff in Hnd as [Hx Hnd]. simpl.
  destruct Hin as [->|Hin].
  - rewrite String.eqb_refl. f_equal. now apply filter_title_absent.
  - destruct (String.eqb_spec (course_title x) (course_title c)) as [E|_];
      [|now apply IH].
    exfalso. apply Hx. rewrite E. now apply in_map.
Qed.

Lemma search_without_failures (skill : string) :
  search_coursera_for_skill (without_failures coursera) skill =
  search_coursera_for_skill coursera skill.
Proof.
  unfold search_coursera_for_skill, without_failures.
  destruct (String.eqb skill "" || String.eqb (strip skill) ""); [reflexivity|].
  now destruct (coursera skill).
Qed.

Lemma unique_by_title_length courses seen :
  length (unique_by_title courses seen []) <= length courses.
Proof.
  revert seen. induction courses as [|c cs IH]; intros seen; [simpl; lia|].
  rewrite unique_by_title_cons.
  destruct (decide (course_title c ∈ seen)); simpl;
    [specialize (IH seen) | specialize (IH ({[course_title c]} ∪ seen))]; lia.
Qed.

Lemma skills_of_spec (specialization : string) :
  skills_of specialization =
  firstn 10 (List.filter (fun skill => negb (String.eqb skill ""))
                         (map strip (split "," specialization))) /\
  length (skills_of specialization) <= 10 /\
  List.Forall (fun skill => strip skill = skill /\ skill <> "")
              (skills_of specialization).
Proof.
  unfold skills_of. split; [|split].
  - f_equal. induction (split "," specialization) as [|x l IH]; simpl;
      [reflexivity|].
    destruct (String.eqb (strip x) ""); simpl; now rewrite IH.
  - rewrite length_firstn. lia.
  - apply List.Forall_forall. intros skill Hin.
    apply In_firstn, in_map_iff in Hin as (part & <- & Hin).
    apply filter_In in Hin as [_ Hne].
    split; [apply strip_idem|].
    intros E. rewrite E in Hne. discriminate.
Qed.

(** C4: for a specialization with a comma, no title occurs twice in the
    result of [get_certifications], and every title of the combined list
    occurs in it once, with the entry (URL and skill) of its first
    occurrence in the combined list. *)
Theorem get_certifications_unique_titles (specialization : string) :
  contains "," specialization = true ->
  let courses :=
    collect_courses coursera (skills_of specialization) [] in
  let out := get_certifications coursera specialization in
  List.NoDup (map course_title out) /\
  (forall title, In title (map course_title courses) ->
     exists c,
       first_with_title title courses = Some c /\
       List.filter (fun x => String.eqb (course_title x) title) out = [c]) /\
  (forall c, In c out -> first_with_title (course_title c) courses = Some c).
Proof.
  intros Hmulti courses out.
  assert (Eout : out = unique_by_title courses ∅ []).
  { subst out. unfold get_certifications. now rewrite Hmulti. }
  rewrite Eout. split; [apply unique_by_title_NoDup|]. split.
  - intros title Hin. apply in_map_iff in Hin as (c0 & <- & Hc0).
    pose proof (unique_by_title_complete courses ∅ c0 Hc0 ltac:(set_solver)) as Ht.
    apply in_map_iff in Ht as (c & Et & Hc).
    exists c. rewrite <- Et. split.
    + now apply (unique_by_title_first courses ∅).
    + apply NoDup_titles_filter; [apply unique_by_title_NoDup | exact Hc].
  - intros c Hc. now apply (unique_by_title_first courses ∅).
Qed.

(** C5: for a specialization with a comma, the skills are the parts
    between commas, stripped, without the empty ones, ten at most; the
    result is the list of the first three courses found for each skill,
    skill after skill, with repeated titles dropped; a skill whose request
    fails adds nothing, and the result is the one a catalogue answering
    those requests with an empty page would give. *)
Theorem get_certifications_multi_skill (specialization : string) :
  contains "," specialization = true ->
  let skills := skills_of specialization in
  skills = firstn 10 (List.filter (fun skill => negb (String.eqb skill ""))
                                  (map strip (split "," specialization))) /\
  length skills <= 10 /\
  List.Forall (fun skill => strip skill = skill /\ skill <> "") skills /\
  get_certifications coursera specialization =
    unique_by_title
      (flat_map (fun skill =>
                   map (tagged skill)
                       (firstn 3 (search_coursera_for_skill coursera skill)))
                skills) ∅ [] /\
  (forall skill, coursera skill = RequestFailed \/ coursera skill = UnexpectedError ->
                 search_coursera_for_skill coursera skill = []) /\
  get_certifications coursera specialization =
    get_certifications (without_failures coursera) specialization /\
  length (get_certifications coursera specialization) <= 3 * length skills.
Proof.
  intros Hmulti skills.
  destruct (skills_of_spec specialization) as (E1 & E2 & E3).
  assert (Eout : forall cat,
    get_certifications cat specialization =
    unique_by_title
      (flat_map (fun skill =>
                   map (tagged skill)
                       (firstn 3 (search_coursera_for_skill cat skill)))
                skills) ∅ []).
  { intros cat. unfold get_certifications. rewrite Hmulti. fold skills.
    assert (H : forall ss acc0,
      collect_courses cat ss acc0 =
      (acc0 ++ flat_map (fun skill => map (tagged skill)
                 (firstn 3 (search_coursera_for_skill cat skill))) ss)%list).
    { induction ss as [|x ss IH]; intros acc0; simpl;
        [now rewrite app_nil_r | rewrite IH; now rewrite <- app_assoc]. }
    now rewrite H. }
  repeat split; try assumption.
  - apply Eout.
  - intros skill [Hf|Hf]; unfold search_coursera_for_skill; rewrite Hf;
      now destruct (String.eqb skill "" || String.eqb (strip skill) "").
  - rewrite !Eout. f_equal. rewrite !flat_map_concat_map. f_equal.
    apply map_ext. intros skill. now rewrite search_without_failures.
  - rewrite Eout.
    etransitivity; [apply unique_by_title_length|].
    clear. induction skills as [|x ss IH]; simpl; [lia|].
    rewrite length_app, length_map, length_firstn. lia.
Qed.

End CertFacts.

Lemma get_certifications_unique_titles_witness :
  let out := Certifications.get_certifications Certifications.demo_catalog
               "python, rust, sql" in
  List.NoDup (map Certifications.course_title out) /\
  List.filter (fun x => String.eqb (Certifications.course_title x) "Data Science")
              out
  = [Certifications.tagged "python"
       ("Data Science", "https://www.coursera.org/learn/ds-python")].
Proof.
  destruct (get_certifications_unique_titles Certifications.demo_catalog
              "python, rust, sql" eq_refl) as (Hnd & Hall & _).
  split; [exact Hnd|].
  destruct (Hall "Data Science") as (c & Hc & Hf).
  - vm_compute. tauto.
  - vm_compute in Hc. injection Hc as <-. exact Hf.
Defined.

Lemma get_certifications_multi_skill_witness :
  Certifications.get_certifications Certifications.demo_catalog
    "python, rust, sql" =
  Certifications.get_certifications
    (Certifications.without_failures Certifications.demo_catalog)
    "python, rust, sql" /\
  length (Certifications.get_certifications Certifications.demo_catalog
            "python, rust, sql") <= 3 * 3.
Proof.
  destruct (get_certifications_multi_skill Certifications.demo_catalog
              "python, rust, sql" eq_refl) as (_ & _ & _ & _ & _ & H1 & H2).
  split; [exact H1 | exact H2].
Defined.

(** ** Certifications: further properties *)

Section CertMore.
Import Certifications.

Variable coursera : string -> fetched.

Lemma absolute_prefix (h : string) : String.prefix "http" (absolute h) = true.
Proof.
  unfold absolute. destruct (String.prefix "http" h) eqn:E; [exact E|].
  reflexivity.
Qed.

Lemma extract_courses_well_formed (links : list Link) :
  List.Forall (fun c => fst c <> "" /\ String.prefix "http" (snd c) = true)
              (extract_courses links).
Proof.
  induction links as [|link links IH]; simpl; [constructor|].
  destruct (link_title link) as [title|]; [|exact IH].
  destruct (href link) as [h|]; [|exact IH].
  destruct (String.eqb_spec title "") as [->|Hne]; simpl; [exact IH|].
  destruct (String.eqb h ""); simpl; [exact IH|].
  constructor; [|exact IH]. split; [exact Hne | apply absolute_prefix].
Qed.

Lemma search_well_formed (skill : string) :
  List.Forall (fun c => fst c <> "" /\ String.prefix "http" (snd c) = true)
              (search_coursera_for_skill coursera skill).
Proof.
  unfold search_coursera_for_skill.
  destruct (String.eqb skill "" || String.eqb (strip skill) ""); [constructor|].
  destruct (coursera skill); [apply extract_courses_well_formed | constructor..].
Qed.

Lemma collected_from_search (skills : list string) (c : Course) :
  In c (collect_courses coursera skills []) ->
  exists skill,
    In skill skills /\ course_skill c = Some skill /\
    In (course_title c, course_url c)
       (firstn 3 (search_coursera_for_skill coursera skill)).
Proof.
  rewrite collect_courses_flat_map. simpl. intros Hin.
  apply in_flat_map in Hin as (skill & Hs & Hin).
  apply in_map_iff in Hin as ([t u] & <- & Hin).
  exists skill. now repeat split.
Qed.

Lemma unique_by_title_sublist courses seen :
  unique_by_title courses seen [] `sublist_of` courses.
Proof.
  revert seen. induction courses as [|c cs IH]; intros seen; [constructor|].
  rewrite unique_by_title_cons.
  destruct (decide (course_title c ∈ seen));
    [apply sublist_cons | apply sublist_skip]; apply IH.
Qed.

Lemma collect_courses_length (skills : list string) :
  length (collect_courses coursera skills []) <= 3 * length skills.
Proof.
  rewrite collect_courses_flat_map. simpl.
  induction skills as [|x ss IH]; simpl; [lia|].
  rewrite length_app, length_map, length_firstn. lia.
Qed.

(** Whatever the catalogue answers, [get_certifications] returns at most
    30 entries (3 without a comma in the specialization, and then none
    carries a skill), each with a non-empty title and a URL that starts
    with "http". *)
Theorem get_certifications_entries (specialization : string) :
  let out := get_certifications coursera specialization in
  length out <= 30 /\
  List.Forall (fun c => course_title c <> "" /\
                        String.prefix "http" (course_url c) = true) out /\
  (contains "," specialization = false ->
   length out <= 3 /\ List.Forall (fun c => course_skill c = None) out).
Proof.
  intros out. subst out. unfold get_certifications.
  destruct (contains "," specialization) eqn:Hc.
  - split; [|split; [|discriminate]].
    + etransitivity; [apply unique_by_title_length|].
      etransitivity; [apply collect_courses_length|].
      destruct (skills_of_spec specialization) as (_ & Hlen & _). lia.
    + apply List.Forall_forall. intros c Hin.
      apply unique_by_title_In, collected_from_search in Hin
        as (skill & _ & _ & Hin).
      apply In_firstn in Hin.
      pose proof (search_well_formed skill) as Hw.
      rewrite List.Forall_forall in Hw. exact (Hw _ Hin).
  - assert (Hlen : length (map untagged (firstn limit_per_skill
               (search_coursera_for_skill coursera specialization))) <= 3).
    { rewrite length_map, length_firstn. unfold limit_per_skill. lia. }
    assert (Hskill : List.Forall (fun c => course_skill c = None)
              (map untagged (firstn limit_per_skill
                 (search_coursera_for_skill coursera specialization)))).
    { apply List.Forall_forall. intros c Hin.
      now apply in_map_iff in Hin as (p & <- & _). }
    split; [lia|]. split; [|now intros _].
    apply List.Forall_forall. intros c Hin.
    apply in_map_iff in Hin as (p & <- & Hin). apply In_firstn in Hin.
    pose proof (search_well_formed specialization) as Hw.
    rewrite List.Forall_forall in Hw. exact (Hw _ Hin).
Qed.

(** With a comma in the specialization, every entry returned carries one
    of the skills processed and is among the first three courses found
    for that skill, and the entries keep the order in which the courses
    were collected. *)
Theorem get_certifications_provenance (specialization : string) :
  contains "," specialization = true ->
  let out := get_certifications coursera specialization in
  (forall c, In c out ->
     exists skill,
       In skill (skills_of specialization) /\
       course_skill c = Some skill /\
       In (course_title c, course_url c)
          (firstn 3 (search_coursera_for_skill coursera skill))) /\
  out `sublist_of` collect_courses coursera (skills_of specialization) [].
Proof.
  intros Hc out. subst out. unfold get_certifications. rewrite Hc. split.
  - intros c Hin. now apply unique_by_title_In, collected_from_search in Hin.
  - apply unique_by_title_sublist.
Qed.

Lemma comma_free_join_two (x y : string) (l : list string) :
  contains "," (join ", " (x :: y :: l)) = true.
Proof.
  change (join ", " (x :: y :: l)) with (x ++ ", " ++ join ", " (y :: l)).
  pose proof (comma_free_app x (", " ++ join ", " (y :: l))) as H.
  change (", " ++ join ", " (y :: l))
    with (String "," (" " ++ join ", " (y :: l))) in H.
  rewrite comma_free_cons in H. simpl in H. rewrite andb_false_r in H.
  unfold comma_free in H. now apply negb_false_iff in H.
Qed.

Lemma strip_space_piece (e : string) :
  strip e = e -> e <> "" -> strip (" " ++ e) = e.
Proof.
  intros He Hne. unfold strip in *.
  change (" " ++ e) with (String " " e). cbn [rstrip].
  destruct (String.eqb_spec (rstrip e) "") as [E|_].
  - rewrite E in He. simpl in He. congruence.
  - simpl. exact He.
Qed.

(** The skills read back from skills that were cleaned and joined. *)
Lemma skills_of_join (l : list string) :
  List.Forall (fun e => comma_free e = true /\ strip e = e /\ e <> "") l ->
  length l <= 10 -> l <> [] ->
  skills_of (join ", " l) = l.
Proof.
  intros Hall Hlen Hne. destruct l as [|x l]; [contradiction|].
  apply List.Forall_cons_iff in Hall as [(Hx1 & Hx2 & Hx3) Hall].
  unfold skills_of, split.
  rewrite split_comma_join; [| |exact Hx1].
  2:{ eapply List.Forall_impl; [|exact Hall]. now intros e (H & _). }
  rewrite string_app_nil_l. cbn [List.filter map].
  rewrite Hx2. destruct (String.eqb_spec x "") as [E|_]; [contradiction|].
  cbn [negb map]. rewrite Hx2.
  assert (Hrest : map strip
            (List.filter (fun skill => negb (String.eqb (strip skill) ""))
                         (map (fun e => " " ++ e) l)) = l).
  { clear Hlen Hne. induction Hall as [|y l (Hy1 & Hy2 & Hy3) Hl IH];
      [reflexivity|].
    cbn [map List.filter]. rewrite (strip_space_piece y Hy2 Hy3).
    destruct (String.eqb_spec y "") as [E|_]; [contradiction|].
    cbn [negb map]. now rewrite (strip_space_piece y Hy2 Hy3), IH. }
  rewrite Hrest. apply firstn_all2. exact Hlen.
Qed.

Lemma skills_of_clean (specialization : string) :
  List.Forall (fun e => comma_free e = true /\ strip e = e /\ e <> "")
              (skills_of specialization).
Proof.
  destruct (skills_of_spec specialization) as (_ & _ & Hs).
  apply List.Forall_forall. intros e Hin.
  rewrite List.Forall_forall in Hs. destruct (Hs e Hin) as [H1 H2].
  repeat split; try assumption.
  unfold skills_of in Hin.
  apply In_firstn, in_map_iff in Hin as (part & <- & Hin).
  apply filter_In in Hin as [Hin _].
  apply comma_free_strip.
  pose proof (split_go_comma_free specialization "" eq_refl) as Hf.
  rewrite List.Forall_forall in Hf. now apply Hf.
Qed.

Lemma clean_specialization_join (specialization : string) :
  contains "," specialization = true ->
  CertificationsView.clean_specialization specialization =
  join ", " (skills_of specialization).
Proof.
  intros Hc. unfold CertificationsView.clean_specialization, skills_of.
  rewrite Hc. f_equal.
  destruct (Nat.ltb_spec 10 (length (map strip
              (List.filter (fun skill => negb (String.eqb (strip skill) ""))
                           (split "," specialization))))) as [H|H];
    [reflexivity | now rewrite firstn_all2].
Qed.

(** The handler cleans the skills and joins them again before it calls
    [get_certifications]. With two skills or more the answer is that of
    [get_certifications] on the original string; when one skill is left
    the call takes the path for a single skill, so the entries carry no
    skill and repeated titles stay; when none is left the answer is empty. *)
Theorem CertificationsView_clean (specialization : string) :
  contains "," specialization = true ->
  let cleaned := CertificationsView.clean_specialization specialization in
  (2 <= length (skills_of specialization) ->
   get_certifications coursera cleaned =
   get_certifications coursera specialization) /\
  (forall skill, skills_of specialization = [skill] ->
   get_certifications coursera cleaned =
   map untagged (firstn 3 (search_coursera_for_skill coursera skill))) /\
  (skills_of specialization = [] ->
   get_certifications coursera cleaned = []).
Proof.
  intros Hc cleaned. subst cleaned.
  rewrite (clean_specialization_join _ Hc).
  pose proof (skills_of_clean specialization) as Hclean.
  destruct (skills_of_spec specialization) as (_ & Hlen & _).
  split; [|split].
  - intros H2. unfold get_certifications at 1 2. rewrite Hc.
    destruct (skills_of specialization) as [|x [|y l]] eqn:E;
      [simpl in H2; lia | simpl in H2; lia|].
    rewrite comma_free_join_two.
    rewrite skills_of_join; [reflexivity | exact Hclean | exact Hlen | discriminate].
  - intros skill E. rewrite E in *. simpl join.
    apply List.Forall_cons_iff in Hclean as [(H1 & _) _].
    unfold get_certifications. unfold comma_free in H1.
    apply negb_true_iff in H1. now rewrite H1.
  - intros E. rewrite E. reflexivity.
Qed.

End CertMore.

Lemma get_certifications_provenance_witness :
  Certifications.get_certifications Certifications.demo_catalog
    "python, rust, sql"
  `sublist_of`
  Certifications.collect_courses Certifications.demo_catalog
    (Certifications.skills_of "python, rust, sql") [].
Proof.
  exact (proj2 (get_certifications_provenance Certifications.demo_catalog
                  "python, rust, sql" eq_refl)).
Defined.

Lemma CertificationsView_clean_witness :
  Certifications.get_certifications Certifications.demo_catalog
    (CertificationsView.clean_specialization " python ,, sql,") =
  Certifications.get_certifications Certifications.demo_catalog
    " python ,, sql,".
Proof.
  exact (proj1 (CertificationsView_clean Certifications.demo_catalog
                  " python ,, sql," eq_refl) ltac:(vm_compute; lia)).
Defined.

Lemma get_certifications_entries_witness :
  length (Certifications.get_certifications Certifications.demo_catalog "python")
    <= 3 /\
  List.Forall (fun c => Certifications.course_skill c = None)
    (Certifications.get_certifications Certifications.demo_catalog "python").
Proof.
  apply (proj2 (proj2 (get_certifications_entries
                         Certifications.demo_catalog "python"))).
  reflexivity.
Defined.

(** ** Paginated fetching *)

Section FetchFacts.
Import Fetcher.

Variable job : Type.
Variable api : nat -> dict -> response job.
Variable params : loc.

Lemma read_params_written (h : store) (st_cursor : pyval) (d : dict) :
  h !! params = Some d ->
  read_params params
    (if truthy st_cursor then write_cursor params st_cursor h else h) =
  (if truthy st_cursor then <["nextPage" := st_cursor]> d else d) /\
  (if truthy st_cursor then write_cursor params st_cursor h else h) !! params =
  Some (if truthy st_cursor then <["nextPage" := st_cursor]> d else d) /\
  (forall l, l <> params ->
     (if truthy st_cursor then write_cursor params st_cursor h else h) !! l = h !! l).
Proof.
  intros Hd. unfold read_params, write_cursor.
  destruct (truthy st_cursor).
  - rewrite lookup_alter_eq, Hd. simpl. repeat split.
    intros l Hl. now apply lookup_alter_ne.
  - rewrite Hd. simpl. repeat split.
Qed.

(** One turn of the loop. *)
Lemma fetch_pages_turn (n page : nat) (st : state job) :
  Fetcher.fetch_pages job api params (S n) page st =
  let h := if truthy (next_page st)
           then write_cursor params (next_page st) (heap st) else heap st in
  let sent := read_params params h in
  let stopped := fun r =>
    {| all_jobs := all_jobs st; next_page := next_page st;
       heap := h; requests := (requests st ++ [sent])%list; raised := r |} in
  match api page sent with
  | Failed => stopped None
  | Unusable e => stopped (Some e)
  | Body [] _ => stopped None
  | Body (j :: js) c =>
      let st' := {| all_jobs := (all_jobs st ++ j :: js)%list; next_page := c;
                    heap := h; requests := (requests st ++ [sent])%list;
                    raised := None |} in
      if truthy c then Fetcher.fetch_pages job api params n (S page) st' else st'
  end.
Proof.
  cbn [Fetcher.fetch_pages]. cbv zeta.
  now destruct (api page _) as [|[|j js] c|e].
Qed.

(** The state in which the loop stops after one more request. *)
Lemma stop_trace (page : nat) (st : state job) (d : dict)
  (aj : list job) (np : pyval) (r : option exn) :
  heap st !! params = Some d ->
  let sent := if truthy (next_page st)
              then <["nextPage" := next_page st]> d else d in
  let st' := {| all_jobs := aj; next_page := np;
                heap := if truthy (next_page st)
                        then write_cursor params (next_page st) (heap st)
                        else heap st;
                requests := (requests st ++ [sent])%list; raised := r |} in
  exists rest,
    requests st' = (requests st ++ sent :: rest)%list /\
    heap st' !! params = last (sent :: rest) /\
    cursor_chain job api page (sent :: rest) /\
    (forall l, l <> params -> heap st' !! l = heap st !! l).
Proof.
  intros Hd sent st'.
  destruct (read_params_written (heap st) (next_page st) d Hd)
    as (_ & Hheap & Hother).
  exists []. subst st'. cbn [requests heap].
  repeat split; [exact Hheap | constructor | exact Hother].
Qed.

(** The requests of a run and the store it leaves: the first request is
    made with the dictionary as the loop finds it, every further one with
    the cursor of the previous answer written into it, and the dictionary
    is left as it was last sent. *)
Lemma fetch_pages_trace (n : nat) :
  forall page st d,
    heap st !! params = Some d ->
    let sent := if truthy (next_page st)
                then <["nextPage" := next_page st]> d else d in
    let st' := Fetcher.fetch_pages job api params (S n) page st in
    exists rest,
      requests st' = (requests st ++ sent :: rest)%list /\
      heap st' !! params = last (sent :: rest) /\
      cursor_chain job api page (sent :: rest) /\
      (forall l, l <> params -> heap st' !! l = heap st !! l).
Proof.
  induction n as [|n IH]; intros page st d Hd sent st';
    destruct (read_params_written (heap st) (next_page st) d Hd)
      as (Hread & Hheap & Hother);
    subst st'; rewrite fetch_pages_turn; cbv zeta; rewrite Hread; fold sent;
    (destruct (api page sent) as [|[|j js] c|e] eqn:Ea;
       try apply (stop_trace page st d _ _ _ Hd));
    (destruct (truthy c) eqn:Ec; [|apply (stop_trace page st d _ _ _ Hd)]).
  - apply (stop_trace page st d _ _ _ Hd).
  - match goal with |- context [Fetcher.fetch_pages _ _ _ (S n) (S page) ?s] =>
      destruct (IH (S page) s sent Hheap) as (rest & Hr & Hh & Hc & Ho) end.
    cbn [next_page requests heap] in Hr, Hh, Hc, Ho. rewrite Ec in Hr, Hh, Hc.
    exists (<["nextPage" := c]> sent :: rest). repeat split.
    + rewrite Hr. now rewrite <- app_assoc.
    + rewrite Hh. now rewrite last_cons_cons.
    + now apply (chain_next job api page sent j js c rest).
    + intros l Hl. rewrite (Ho l Hl). now apply Hother.
Qed.

Lemma cursor_chain_lookup page (reqs : list dict) :
  cursor_chain job api page reqs ->
  forall i sent jobs c,
    reqs !! i = Some sent -> api (page + i) sent = Body jobs c ->
    S i < length reqs ->
    truthy c = true /\ reqs !! S i = Some (<["nextPage" := c]> sent).
Proof.
  induction 1 as [page sent0|page sent0 j js c0 rest Ha Hc Hchain IH];
    intros i sent jobs c Hi Hb Hlen.
  - simpl in Hlen. lia.
  - destruct i as [|i].
    + injection Hi as <-. rewrite Nat.add_0_r, Ha in Hb.
      injection Hb as _ <-. now split.
    + apply (IH i sent jobs c); [exact Hi | | simpl in *; lia].
      now replace (S page + i) with (page + S i) by lia.
Qed.

(** The requests of a run from any state: each but the last was answered
    by a page that goes on, the last one ends the loop or uses up the
    budget, the jobs gathered are those of the answers, and an exception
    leaves the loop only at the last answer. *)
Lemma fetch_pages_log (n : nat) :
  forall page st,
    exists new,
      requests (Fetcher.fetch_pages job api params n page st)
        = (requests st ++ new)%list /\
      length new <= n /\
      all_jobs (Fetcher.fetch_pages job api params n page st)
        = (all_jobs st ++ FetcherLog.answered_jobs api page new)%list /\
      (forall i sent, new !! i = Some sent -> S i < length new ->
         continues job (api (page + i) sent) = true) /\
      (forall i sent, new !! i = Some sent -> S i = length new ->
         (continues job (api (page + i) sent) = false \/ S i = n) /\
         raised (Fetcher.fetch_pages job api params n page st)
           = FetcherLog.escaped (api (page + i) sent)) /\
      (new = [] -> n = 0).
Proof.
  induction n as [|n IH]; intros page st.
  - exists []. cbn [Fetcher.fetch_pages]. rewrite !app_nil_r.
    split; [reflexivity|]. split; [cbn; lia|]. split; [reflexivity|].
    split; [intros i sent Hi; destruct i; discriminate|].
    split; [intros i sent Hi; destruct i; discriminate | reflexivity].
  - rewrite fetch_pages_turn. cbv zeta.
    set (sent := read_params params _).
    assert (Hstop : forall aj np,
      continues job (api page sent) = false ->
      aj = (all_jobs st ++ jobs_of job (api page sent))%list ->
      exists new,
        requests {| all_jobs := aj; next_page := np;
                    heap := if truthy (next_page st)
                            then write_cursor params (next_page st) (heap st)
                            else heap st;
                    requests := (requests st ++ [sent])%list;
                    raised := FetcherLog.escaped (api page sent) |}
          = (requests st ++ new)%list /\
        length new <= S n /\
        aj = (all_jobs st ++ FetcherLog.answered_jobs api page new)%list /\
        (forall i s', new !! i = Some s' -> S i < length new ->
           continues job (api (page + i) s') = true) /\
        (forall i s', new !! i = Some s' -> S i = length new ->
           (continues job (api (page + i) s') = false \/ S i = S n) /\
           FetcherLog.escaped (api page sent)
             = FetcherLog.escaped (api (page + i) s')) /\
        (new = [] -> S n = 0)).
    { intros aj np Hc ->. exists [sent]. cbn [requests length].
      split; [reflexivity|]. split; [lia|].
      split; [cbn; now rewrite app_nil_r|].
      split; [intros i s' _ Hi; cbn in Hi; lia|].
      split; [|discriminate].
      intros [|i] s' Hi Hlen; [|cbn in Hlen; lia].
      injection Hi as <-. rewrite Nat.add_0_r. now split; [left|]. }
    destruct (api page sent) as [|[|j js] c|e] eqn:Ea.
    + apply (Hstop (all_jobs st) (next_page st)); [reflexivity|].
      cbn. now rewrite app_nil_r.
    + apply (Hstop (all_jobs st) (next_page st)); [reflexivity|].
      cbn. now rewrite app_nil_r.
    + destruct (truthy c) eqn:Ec;
        [|apply (Hstop (all_jobs st ++ j :: js)%list c); [exact Ec | reflexivity]].
      match goal with |- context [Fetcher.fetch_pages _ _ _ n (S page) ?s] =>
        destruct (IH (S page) s) as (new & Hr & Hl & Hj & Hmid & Hlast & Hnil) end.
      cbn [requests all_jobs] in Hr, Hj.
      exists (sent :: new). rewrite Hr, Hj. cbn [length].
      split; [now rewrite <- app_assoc|]. split; [lia|].
      split; [cbn [FetcherLog.answered_jobs]; rewrite Ea; cbn [jobs_of];
              now rewrite <- app_assoc|].
      split; [|split; [|discriminate]].
      * intros [|i] s' Hi Hlen.
        -- injection Hi as <-. rewrite Nat.add_0_r, Ea. exact Ec.
        -- replace (page + S i) with (S page + i) by lia.
           apply Hmid; [exact Hi | lia].
      * intros [|i] s' Hi Hlen.
        -- injection Hi as <-. rewrite Nat.add_0_r, Ea.
           assert (Hn : new = []) by (destruct new; [reflexivity | discriminate]).
           specialize (Hnil Hn). subst n new. cbn [Fetcher.fetch_pages raised].
           now split; [right|].
        -- replace (page + S i) with (S page + i) by lia.
           destruct (Hlast i s' Hi ltac:(lia)) as [Hor Hraised].
           split; [destruct Hor; [now left | right; lia] | exact Hraised].
    + apply (Hstop (all_jobs st) (next_page st)); [reflexivity|].
      cbn. now rewrite app_nil_r.
Qed.

Lemma answered_jobs_app (page : nat) (l1 l2 : list dict) :
  FetcherLog.answered_jobs api page (l1 ++ l2) =
  (FetcherLog.answered_jobs api page l1 ++
   FetcherLog.answered_jobs api (page + length l1) l2)%list.
Proof.
  revert page. induction l1 as [|x l1 IH]; intros page; simpl.
  - now rewrite Nat.add_0_r.
  - rewrite IH, <- app_assoc. now replace (S page + length l1) with (page + S (length l1)) by lia.
Qed.

Lemma answered_jobs_snoc (reqs : list dict) (sent : dict) :
  FetcherLog.answered_jobs api 0 (reqs ++ [sent]) =
  (FetcherLog.answered_jobs api 0 reqs ++ jobs_of job (api (length reqs) sent))%list.
Proof. rewrite answered_jobs_app. simpl. now rewrite app_nil_r. Qed.

(** The log of a whole call. *)
Lemma run_fetch_log (h : store) (max_pages : Z) :
  let st := run_fetch job api h params max_pages in
  length (requests st) <= Z.to_nat max_pages /\
  all_jobs st = FetcherLog.answered_jobs api 0 (requests st) /\
  (forall i sent, requests st !! i = Some sent -> S i < length (requests st) ->
     continues job (api i sent) = true) /\
  (forall i sent, requests st !! i = Some sent -> S i = length (requests st) ->
     (continues job (api i sent) = false \/ S i = Z.to_nat max_pages) /\
     raised st = FetcherLog.escaped (api i sent)) /\
  (requests st = [] -> raised st = None).
Proof.
  intros st. subst st. unfold run_fetch.
  match goal with |- context [Fetcher.fetch_pages _ _ _ ?n 0 ?s] =>
    destruct (fetch_pages_log n 0 s) as (new & Hr & Hl & Hj & Hmid & Hlast & Hnil)
  end.
  cbn [requests all_jobs app] in Hr, Hj. rewrite Hr, Hj.
  split; [exact Hl|]. split; [reflexivity|]. split; [exact Hmid|].
  split; [exact Hlast|].
  intros ->. rewrite (Hnil eq_refl). reflexivity.
Qed.

(** A run from the initial state. *)
Lemma run_fetch_trace (h : store) (d : dict) (max_pages : Z) :
  h !! params = Some d ->
  (0 < max_pages)%Z ->
  exists rest,
    requests (run_fetch job api h params max_pages) = d :: rest /\
    heap (run_fetch job api h params max_pages) !! params = last (d :: rest) /\
    cursor_chain job api 0 (d :: rest) /\
    (forall l, l <> params ->
       heap (run_fetch job api h params max_pages) !! l = h !! l).
Proof.
  intros Hd Hpos. unfold run_fetch.
  destruct (Z.to_nat max_pages) as [|n] eqn:En; [lia|].
  exact (fetch_pages_trace n 0
           {| all_jobs := []; next_page := PyStr ""; heap := h; requests := [];
              raised := None |}
           d Hd).
Qed.

Lemma run_fetch_no_page (h : store) (max_pages : Z) :
  (max_pages <= 0)%Z ->
  run_fetch job api h params max_pages =
  {| all_jobs := []; next_page := PyStr ""; heap := h; requests := [];
     raised := None |}.
Proof.
  intros Hle. unfold run_fetch.
  now replace (Z.to_nat max_pages) with 0 by lia.
Qed.

Lemma cursor_chain_step page (reqs : list dict) :
  cursor_chain job api page reqs ->
  forall i, S i < length reqs ->
    exists sent j js c,
      reqs !! i = Some sent /\ api (page + i) sent = Body (j :: js) c /\
      truthy c = true /\ reqs !! S i = Some (<["nextPage" := c]> sent).
Proof.
  induction 1 as [page sent0|page sent0 j js c0 rest Ha Hc Hchain IH];
    intros i Hlen.
  - simpl in Hlen. lia.
  - destruct i as [|i].
    + exists sent0, j, js, c0. rewrite Nat.add_0_r. now repeat split.
    + destruct (IH i) as (sent & j' & js' & c & H1 & H2 & H3 & H4);
        [simpl in *; lia|].
      exists sent, j', js', c. repeat split; try assumption.
      now replace (page + S i) with (S page + i) by lia.
Qed.

End FetchFacts.

Section FetchResults.
Import Fetcher.

Variable job : Type.

(** C6 (as the code has it): [fetch_paginated_jobs] makes at most
    [max_pages] requests. Every request but the last was answered by a
    page with jobs and a cursor; the last one used up the budget or got an
    answer that ends the loop: a failed request, a page without jobs, a
    page without cursor, or an answer that cannot be read. The call
    returns the jobs of all answers, so at a failed request those of the
    pages before it, with no further request; only an answer that cannot
    be read makes it raise. For the answers [{jobs:[x], nextPage:"t1"}]
    to the first request and [{jobs:[], nextPage:null}] to the request
    with that cursor it returns [[x]] after these two requests, for any
    [max_pages] of at least 2. *)
Theorem fetch_paginated_jobs_partial_result
  (api : nat -> dict -> response job) (h : store) (params : loc)
  (max_pages : Z) :
  let made := requests (run_fetch job api h params max_pages) in
  let result := fst (fetch_paginated_jobs job api h params max_pages) in
  length made <= Z.to_nat max_pages /\
  (forall i sent, made !! i = Some sent -> S i < length made ->
     continues job (api i sent) = true) /\
  (forall i sent, made !! i = Some sent -> S i = length made ->
     (continues job (api i sent) = false \/ S i = Z.to_nat max_pages) /\
     result = match api i sent with
              | Unusable e => Raise e
              | _ => Ok (FetcherLog.answered_jobs api 0 made)
              end) /\
  (made = [] -> result = Ok []) /\
  (forall k sent, made !! k = Some sent ->
     continues job (api k sent) = false ->
     length made = S k /\
     result = match api k sent with
              | Unusable e => Raise e
              | answer =>
                  Ok (FetcherLog.answered_jobs api 0 (firstn k made)
                      ++ jobs_of job answer)%list
              end) /\
  (forall d x, h !! params = Some d ->
     api 0 d = Body [x] (PyStr "t1") ->
     api 1 (<["nextPage" := PyStr "t1"]> d) = Body [] PyNone ->
     (2 <= max_pages)%Z ->
     result = Ok [x] /\ made = [d; <["nextPage" := PyStr "t1"]> d]).
Proof.
  intros made result.
  destruct (run_fetch_log job api params h max_pages)
    as (Hlen & Hjobs & Hmid & Hlast & Hnil).
  fold made in Hlen, Hjobs, Hmid, Hlast, Hnil.
  assert (Hres : forall i sent, made !! i = Some sent -> S i = length made ->
            result = match api i sent with
                     | Unusable e => Raise e
                     | _ => Ok (FetcherLog.answered_jobs api 0 made)
                     end).
  { intros i sent Hi Hl. destruct (Hlast i sent Hi Hl) as [_ Hr].
    subst result. unfold fetch_paginated_jobs. cbn [fst].
    rewrite Hr, Hjobs. fold made.
    now destruct (api i sent) as [|jobs c|e]. }
  split; [exact Hlen|]. split; [exact Hmid|].
  split; [intros i sent Hi Hl; split;
          [apply (Hlast i sent Hi Hl) | apply (Hres i sent Hi Hl)]|].
  split; [|split].
  - intros E. subst result. unfold fetch_paginated_jobs. cbn [fst].
    rewrite (Hnil E), Hjobs. fold made. now rewrite E.
  - intros k sent Hk Hstop.
    assert (Hl : length made = S k).
    { pose proof (lookup_lt_Some _ _ _ Hk) as Hlt.
      destruct (Nat.eq_dec (length made) (S k)) as [E|Hne]; [exact E|].
      rewrite (Hmid k sent Hk) in Hstop by lia. discriminate. }
    split; [exact Hl|].
    rewrite (Hres k sent Hk (eq_sym Hl)).
    assert (Ha : forall l : list dict, l !! k = Some sent -> length l = S k ->
              FetcherLog.answered_jobs api 0 l =
              (FetcherLog.answered_jobs api 0 (firstn k l)
               ++ jobs_of job (api k sent))%list).
    { intros l Hlk Hll. rewrite <- (take_drop k l) at 1.
      erewrite drop_S by exact Hlk. rewrite (drop_ge l (S k)) by lia.
      rewrite (answered_jobs_snoc job api), length_take.
      now replace (k `min` length l) with k by lia. }
    rewrite (Ha made Hk Hl). now destruct (api k sent).
  - intros d x Hd H0 H1 Hmax. subst result made.
    unfold fetch_paginated_jobs, run_fetch. cbn [fst].
    destruct (Z.to_nat max_pages) as [|[|n]] eqn:En; [lia | lia |].
    rewrite (fetch_pages_turn job api params). cbv zeta. cbn [next_page truthy
      String.eqb negb heap requests all_jobs app].
    replace (read_params params h) with d
      by (unfold read_params; now rewrite Hd).
    rewrite H0. cbn [truthy String.eqb negb Ascii.eqb].
    change (truthy (PyStr "t1")) with true. cbv iota.
    rewrite (fetch_pages_turn job api params). cbv zeta.
    cbn [next_page heap requests all_jobs].
    change (truthy (PyStr "t1")) with true. cbv iota.
    destruct (read_params_written params h (PyStr "t1") d Hd) as (Hread & _).
    change (truthy (PyStr "t1")) with true in Hread. cbv iota in Hread.
    rewrite Hread, H1. cbn [raised all_jobs requests app]. now split.
Qed.

(** C10: when an answer carries a cursor and the loop goes on to another
    request, that request is made with the cursor written under
    [nextPage] into the caller's dictionary; the dictionary the caller
    holds after the call is the one last sent, so it carries a cursor under
    [nextPage] and differs from the original unless the original already
    had that cursor there. No other object of the store is touched. *)
Theorem fetch_paginated_jobs_writes_cursor
  (api : nat -> dict -> response job) (h : store) (params : loc)
  (d : dict) (max_pages : Z) :
  h !! params = Some d ->
  let st := run_fetch job api h params max_pages in
  let left := snd (fetch_paginated_jobs job api h params max_pages) in
  (forall i sent jobs c,
      requests st !! i = Some sent -> api i sent = Body jobs c ->
      S i < length (requests st) ->
      truthy c = true /\
      requests st !! S i = Some (<["nextPage" := c]> sent) /\
      exists c' d',
        truthy c' = true /\ left !! params = Some d' /\
        d' !! "nextPage" = Some c' /\
        (d !! "nextPage" <> Some c' -> d' <> d) /\
        (S (S i) = length (requests st) ->
         c' = c /\ d' = <["nextPage" := c]> sent)) /\
  (forall l, l <> params -> left !! l = h !! l).
Proof.
  intros Hd st left.
  destruct (Z_lt_le_dec 0 max_pages) as [Hpos|Hle].
  - destruct (run_fetch_trace job api params h d max_pages Hd Hpos)
      as (rest & Hreq & Hheap & Hchain & Hother).
    split; [|exact Hother].
    intros i sent jobs c Hi Hb Hlen. subst st left.
    unfold fetch_paginated_jobs. cbn [snd].
    rewrite Hreq in Hi, Hlen |- *. rewrite Hheap.
    destruct (cursor_chain_lookup job api 0 _ Hchain i sent jobs c Hi Hb Hlen)
      as [Hc Hnext].
    split; [exact Hc|]. split; [exact Hnext|].
    rewrite last_lookup.
    destruct (cursor_chain_step job api 0 _ Hchain
                (pred (pred (length (d :: rest)))))
      as (sent' & j' & js' & c' & H1 & H2 & H3 & H4); [simpl in *; lia|].
    cbn [Nat.add] in H2.
    replace (S (pred (pred (length (d :: rest))))) with (pred (length (d :: rest)))
      in H4 by (simpl in *; lia).
    exists c', (<["nextPage" := c']> sent'). repeat split.
    + exact H3.
    + exact H4.
    + apply lookup_insert_eq.
    + intros Hne E. apply Hne. rewrite <- E. apply lookup_insert_eq.
    + assert (Ei : i = pred (pred (length (d :: rest)))) by (simpl in *; lia).
      rewrite <- Ei in H1, H2. rewrite Hi in H1. injection H1 as <-.
      rewrite Hb in H2. now injection H2.
    + assert (Ei : i = pred (pred (length (d :: rest)))) by (simpl in *; lia).
      rewrite <- Ei in H1, H2. rewrite Hi in H1. injection H1 as <-.
      rewrite Hb in H2. injection H2 as _ <-. reflexivity.
  - subst st left. unfold fetch_paginated_jobs.
    rewrite (run_fetch_no_page job api params h max_pages Hle). cbn [snd heap requests].
    split; [|reflexivity].
    intros i sent jobs c Hi. destruct i; discriminate.
Qed.

End FetchResults.

Lemma fetch_paginated_jobs_partial_result_witness :
  (fst (Fetcher.fetch_paginated_jobs string Fetcher.cursor_api
          Fetcher.demo_store 1%positive 5) = Ok ["x"] /\
   Fetcher.requests (Fetcher.run_fetch string Fetcher.cursor_api
          Fetcher.demo_store 1%positive 5) =
     [Fetcher.DEFAULT_PARAMS;
      <["nextPage" := PyStr "t1"]> Fetcher.DEFAULT_PARAMS]) /\
  (length (Fetcher.requests (Fetcher.run_fetch string Fetcher.failing_api
          Fetcher.demo_store 1%positive 5)) = 3 /\
   fst (Fetcher.fetch_paginated_jobs string Fetcher.failing_api
          Fetcher.demo_store 1%positive 5) = Ok ["a"; "b"; "c"]).
Proof.
  split.
  - apply (proj2 (proj2 (proj2 (proj2 (proj2
             (fetch_paginated_jobs_partial_result string Fetcher.cursor_api
                Fetcher.demo_store 1%positive 5%Z)))))
             Fetcher.DEFAULT_PARAMS "x");
      [reflexivity | reflexivity | reflexivity | lia].
  - apply (proj1 (proj2 (proj2 (proj2 (proj2
             (fetch_paginated_jobs_partial_result string Fetcher.failing_api
                Fetcher.demo_store 1%positive 5%Z)))))
             2 (<["nextPage" := PyStr "t2"]>
                  (<["nextPage" := PyStr "t1"]> Fetcher.DEFAULT_PARAMS)));
      reflexivity.
Defined.

(** C6 fails as stated: a call can raise. When the service answers with
    the JSON array [[]], the answer has no [get] and the
    [AttributeError] leaves the function. *)
Lemma fetch_paginated_jobs_may_raise :
  ~ (forall (api : nat -> Fetcher.dict -> Fetcher.response string)
            (h : Fetcher.store) (params : Fetcher.loc) (max_pages : Z),
       exists jobs,
         fst (Fetcher.fetch_paginated_jobs string api h params max_pages)
           = Ok jobs).
Proof.
  intros H.
  destruct (H Fetcher.array_api Fetcher.demo_store 1%positive 5%Z)
    as (jobs & E).
  vm_compute in E. discriminate.
Qed.

Lemma fetch_paginated_jobs_writes_cursor_witness :
  truthy (PyStr "t2") = true /\
  Fetcher.requests (Fetcher.run_fetch string Fetcher.failing_api
      Fetcher.demo_store 1%positive 5) !! 2 =
    Some (<["nextPage" := PyStr "t2"]>
            (<["nextPage" := PyStr "t1"]> Fetcher.DEFAULT_PARAMS)) /\
  exists c' d',
    truthy c' = true /\
    snd (Fetcher.fetch_paginated_jobs string Fetcher.failing_api
           Fetcher.demo_store 1%positive 5) !! 1%positive = Some d' /\
    d' !! "nextPage" = Some c' /\
    (Fetcher.DEFAULT_PARAMS !! "nextPage" <> Some c' ->
     d' <> Fetcher.DEFAULT_PARAMS) /\
    (3 = length (Fetcher.requests (Fetcher.run_fetch string Fetcher.failing_api
           Fetcher.demo_store 1%positive 5)) ->
     c' = PyStr "t2" /\
     d' = <["nextPage" := PyStr "t2"]>
            (<["nextPage" := PyStr "t1"]> Fetcher.DEFAULT_PARAMS)).
Proof.
  apply (proj1 (fetch_paginated_jobs_writes_cursor string Fetcher.failing_api
                  Fetcher.demo_store 1%positive Fetcher.DEFAULT_PARAMS 5%Z
                  eq_refl)
               1 (<["nextPage" := PyStr "t1"]> Fetcher.DEFAULT_PARAMS)
               ["c"] (PyStr "t2"));
    [reflexivity | reflexivity | simpl; lia].
Defined.

(** ** Paginated fetching: further properties *)

Section FetchMore.
Import Fetcher.

Variable job : Type.
Variable api : nat -> dict -> response job.
Variable params : loc.

Lemma cursor_chain_keys page (reqs : list dict) (key : string) :
  cursor_chain job api page reqs -> key <> "nextPage" ->
  forall first, head reqs = Some first ->
  forall sent, In sent reqs -> sent !! key = first !! key.
Proof.
  induction 1 as [page sent0|page sent0 j js c0 rest Ha Hc Hchain IH];
    intros Hkey first Hfirst sent Hin; injection Hfirst as <-.
  - destruct Hin as [<-|[]]. reflexivity.
  - destruct Hin as [<-|Hin]; [reflexivity|].
    rewrite (IH Hkey _ eq_refl sent Hin).
    now apply lookup_insert_ne.
Qed.

(** The loop never makes more than [max_pages] requests; with a budget of
    zero or less it makes none, returns the empty list and leaves the
    store as it is, and with a positive budget it makes at least one. *)
Theorem fetch_paginated_jobs_within_budget (h : store) (max_pages : Z) :
  length (requests (run_fetch job api h params max_pages))
    <= Z.to_nat max_pages /\
  ((max_pages <= 0)%Z ->
     fetch_paginated_jobs job api h params max_pages = (Ok [], h) /\
     requests (run_fetch job api h params max_pages) = []) /\
  ((0 < max_pages)%Z -> is_Some (h !! params) ->
     1 <= length (requests (run_fetch job api h params max_pages))).
Proof.
  split; [|split].
  - apply (run_fetch_log job api params h max_pages).
  - intros Hle. unfold fetch_paginated_jobs.
    now rewrite (run_fetch_no_page job api params h max_pages Hle).
  - intros Hpos [d Hd].
    destruct (run_fetch_trace job api params h d max_pages Hd Hpos)
      as (rest & -> & _). simpl. lia.
Qed.

(** The list returned is the concatenation, in the order of the requests,
    of the jobs of every answer received: no job of an answered page is
    dropped or repeated. The call returns this list unless the answer to
    its last request is one that cannot be read. *)
Theorem fetch_paginated_jobs_all_answers (h : store) (max_pages : Z) :
  let made := requests (run_fetch job api h params max_pages) in
  (forall jobs,
     fst (fetch_paginated_jobs job api h params max_pages) = Ok jobs ->
     jobs = FetcherLog.answered_jobs api 0 made) /\
  ((forall sent, last made = Some sent ->
      FetcherLog.escaped (api (pred (length made)) sent) = None) ->
   fst (fetch_paginated_jobs job api h params max_pages) =
   Ok (FetcherLog.answered_jobs api 0 made)).
Proof.
  intros made.
  destruct (run_fetch_log job api params h max_pages)
    as (_ & Hjobs & _ & Hlast & Hnil).
  fold made in Hjobs, Hlast, Hnil.
  unfold fetch_paginated_jobs. cbn [fst]. rewrite Hjobs. fold made. split.
  - intros jobs E. destruct (raised _); [discriminate|]. now injection E.
  - intros Hread.
    destruct (last made) as [sent|] eqn:El.
    + pose proof El as Hl. rewrite last_lookup in Hl.
      assert (Hlen : S (pred (length made)) = length made).
      { apply lookup_lt_Some in Hl. lia. }
      destruct (Hlast _ sent Hl Hlen) as [_ ->].
      now rewrite (Hread sent eq_refl).
    + apply last_None in El. now rewrite (Hnil El).
Qed.

(** Apart from [nextPage], every key of the caller's dictionary is sent
    in each request and left after the call with the value it had before
    the call. *)
Theorem fetch_paginated_jobs_keeps_other_keys
  (h : store) (d : dict) (max_pages : Z) (key : string) :
  h !! params = Some d -> key <> "nextPage" ->
  (forall sent, In sent (requests (run_fetch job api h params max_pages)) ->
                sent !! key = d !! key) /\
  (exists d', snd (fetch_paginated_jobs job api h params max_pages) !! params
              = Some d' /\ d' !! key = d !! key).
Proof.
  intros Hd Hkey. unfold fetch_paginated_jobs. cbn [snd].
  destruct (Z_lt_le_dec 0 max_pages) as [Hpos|Hle].
  - destruct (run_fetch_trace job api params h d max_pages Hd Hpos)
      as (rest & Hreq & Hheap & Hchain & _).
    rewrite Hreq, Hheap.
    pose proof (cursor_chain_keys 0 _ key Hchain Hkey d eq_refl) as Hall.
    split; [exact Hall|].
    destruct (last (d :: rest)) as [d'|] eqn:El.
    + exists d'. split; [reflexivity|]. apply Hall.
      apply list_elem_of_In. rewrite last_lookup in El.
      now apply list_elem_of_lookup_2 in El.
    + rewrite last_lookup in El. simpl in El.
      apply lookup_ge_None in El. simpl in El. lia.
  - rewrite (run_fetch_no_page job api params h max_pages Hle).
    cbn [requests heap]. split; [intros sent []|].
    now exists d.
Qed.

End FetchMore.

Section FetchReuse.
Import Fetcher.

Variable job : Type.

(** A second call with the same dictionary starts from where the first
    one stopped: when the first call made two requests or more, the first
    request of the second call already carries the last cursor of the first
    call under [nextPage]. *)
Theorem fetch_paginated_jobs_reuses_cursor
  (api1 api2 : nat -> dict -> response job) (h : store) (params : loc)
  (d : dict) (max_pages1 max_pages2 : Z) :
  h !! params = Some d ->
  2 <= length (requests (run_fetch job api1 h params max_pages1)) ->
  (0 < max_pages2)%Z ->
  let h1 := snd (fetch_paginated_jobs job api1 h params max_pages1) in
  exists c d1,
    truthy c = true /\
    h1 !! params = Some d1 /\
    d1 !! "nextPage" = Some c /\
    head (requests (run_fetch job api2 h1 params max_pages2)) = Some d1.
Proof.
  intros Hd Hlen Hpos2 h1.
  assert (Hpos1 : (0 < max_pages1)%Z).
  { destruct (Z_lt_le_dec 0 max_pages1) as [H|H]; [exact H|].
    rewrite (run_fetch_no_page job api1 params h max_pages1 H) in Hlen.
    simpl in Hlen. lia. }
  destruct (run_fetch_trace job api1 params h d max_pages1 Hd Hpos1)
    as (rest & Hreq & Hheap & Hchain & _).
  rewrite Hreq in Hlen.
  destruct (cursor_chain_step job api1 0 _ Hchain
              (pred (pred (length (d :: rest)))))
    as (sent & j & js & c & H1 & H2 & H3 & H4); [simpl in *; lia|].
  replace (S (pred (pred (length (d :: rest))))) with (pred (length (d :: rest)))
    in H4 by (simpl in *; lia).
  assert (Hh1 : h1 !! params = Some (<["nextPage" := c]> sent)).
  { subst h1. unfold fetch_paginated_jobs. cbn [snd].
    now rewrite Hheap, last_lookup. }
  exists c, (<["nextPage" := c]> sent). repeat split.
  - exact H3.
  - exact Hh1.
  - apply lookup_insert_eq.
  - destruct (run_fetch_trace job api2 params h1 _ max_pages2 Hh1 Hpos2)
      as (rest2 & -> & _). reflexivity.
Qed.

End FetchReuse.

Lemma fetch_paginated_jobs_within_budget_witness :
  Fetcher.fetch_paginated_jobs string Fetcher.failing_api Fetcher.demo_store
    1%positive 0 = (Ok [], Fetcher.demo_store) /\
  1 <= length (Fetcher.requests
         (Fetcher.run_fetch string Fetcher.failing_api Fetcher.demo_store
            1%positive 5)).
Proof.
  split.
  - exact (proj1 (proj1 (proj2 (fetch_paginated_jobs_within_budget string
             Fetcher.failing_api 1%positive Fetcher.demo_store 0%Z))
             ltac:(lia))).
  - exact (proj2 (proj2 (fetch_paginated_jobs_within_budget string
             Fetcher.failing_api 1%positive Fetcher.demo_store 5%Z))
             ltac:(lia) (ex_intro _ Fetcher.DEFAULT_PARAMS eq_refl)).
Defined.

Lemma fetch_paginated_jobs_keeps_other_keys_witness :
  exists d',
    snd (Fetcher.fetch_paginated_jobs string Fetcher.failing_api
           Fetcher.demo_store 1%positive 5) !! 1%positive = Some d' /\
    d' !! "location" = Fetcher.DEFAULT_PARAMS !! "location".
Proof.
  exact (proj2 (fetch_paginated_jobs_keeps_other_keys string
           Fetcher.failing_api 1%positive Fetcher.demo_store
           Fetcher.DEFAULT_PARAMS 5%Z "location" eq_refl
           ltac:(discriminate))).
Defined.

Lemma fetch_paginated_jobs_reuses_cursor_witness :
  exists c d1,
    truthy c = true /\
    snd (Fetcher.fetch_paginated_jobs string Fetcher.failing_api
           Fetcher.demo_store 1%positive 5) !! 1%positive = Some d1 /\
    d1 !! "nextPage" = Some c /\
    head (Fetcher.requests
            (Fetcher.run_fetch string Fetcher.two_page_api
               (snd (Fetcher.fetch_paginated_jobs string Fetcher.failing_api
                       Fetcher.demo_store 1%positive 5))
               1%positive 3)) = Some d1.
Proof.
  apply (fetch_paginated_jobs_reuses_cursor string Fetcher.failing_api
           Fetcher.two_page_api Fetcher.demo_store 1%positive
           Fetcher.DEFAULT_PARAMS 5%Z 3%Z eq_refl);
    [vm_compute; lia | lia].
Defined.

Lemma fetch_paginated_jobs_all_answers_witness :
  fst (Fetcher.fetch_paginated_jobs string Fetcher.failing_api
         Fetcher.demo_store 1%positive 5) =
  Ok (FetcherLog.answered_jobs Fetcher.failing_api 0
        (Fetcher.requests (Fetcher.run_fetch string Fetcher.failing_api
           Fetcher.demo_store 1%positive 5))).
Proof.
  apply (proj2 (fetch_paginated_jobs_all_answers string Fetcher.failing_api
                  1%positive Fetcher.demo_store 5%Z)).
  intros sent _. reflexivity.
Defined.
(** ** Request handlers and helpers around the claims' functions *)

(** *** The page number of [ProxyJobsView.post] *)

(** Whatever the request carries as [page], a page number that is sent on
    is at least 1; it is the requested one when that is an integer of at
    least 1, and 1 when the entry is missing, is null or is text that
    [int] does not read. No page is sent exactly when the entry is a float
    infinity: [int] then raises [OverflowError], which the handler's
    [try] around it does not catch. *)
Theorem page_param_at_least_one (data : gmap string pyval) :
  (forall page, ProxyJobs.page_param data = Ok page -> (1 <= page)%Z) /\
  (forall z, data !! "page" = Some (PyInt z) ->
             ProxyJobs.page_param data = Ok (Z.max 1 z)) /\
  (data !! "page" = None \/ data !! "page" = Some PyNone ->
   ProxyJobs.page_param data = Ok 1%Z) /\
  (forall s, data !! "page" = Some (PyStr s) ->
             SkillGap.int_of_string s = Raise ValueError ->
             ProxyJobs.page_param data = Ok 1%Z) /\
  (forall e, ProxyJobs.page_param data = Raise e <->
             e = OverflowError /\
             exists sign,
               data !! "page" = Some (PyFloat (S754_infinity sign))).
Proof.
  unfold ProxyJobs.page_param. split; [|split; [|split; [|split]]].
  - intros page.
    destruct (SkillGap.int_ _) as [p|[]]; try discriminate;
      intros [= <-]; try lia.
    destruct (Z.ltb_spec p 1); lia.
  - intros z ->. cbn. f_equal. destruct (Z.ltb_spec z 1); lia.
  - intros [-> | ->]; reflexivity.
  - intros s -> Hs.
    change (SkillGap.int_ (default (PyInt 1) (Some (PyStr s))))
      with (SkillGap.int_of_string s).
    now rewrite Hs.
  - intros e. destruct (data !! "page") as [[|b|z|f|s|b]|]; cbn.
    + split; [discriminate | intros (_ & sg & [=])].
    + split; [discriminate | intros (_ & sg & [=])].
    + split; [discriminate | intros (_ & sg & [=])].
    + destruct f as [sg|sg| |sg m ex]; cbn.
      * split; [discriminate | intros (_ & sg' & [=])].
      * split; [intros [= <-]; split; [reflexivity | now exists sg]
               | now intros (-> & _)].
      * split; [discriminate | intros (_ & sg' & [=])].
      * split; [discriminate | intros (_ & sg' & [=])].
    + destruct (SkillGap.int_of_string s) as [z|e'] eqn:E.
      * split; [discriminate | intros (_ & sg & [=])].
      * apply int_of_string_raises in E. subst e'.
        split; [discriminate | intros (_ & sg & [=])].
    + split; [discriminate | intros (_ & sg & [=])].
    + split; [discriminate | intros (_ & sg & [=])].
Qed.

Lemma page_param_at_least_one_witness :
  ProxyJobs.page_param {["page" := PyInt (-3)]} = Ok (Z.max 1 (-3)) /\
  ProxyJobs.page_param {["page" := PyStr "two"]} = Ok 1%Z /\
  ProxyJobs.page_param {["page" := PyFloat (S754_infinity false)]}
    = Raise OverflowError.
Proof.
  split; [|split].
  - apply (proj1 (proj2 (page_param_at_least_one {["page" := PyInt (-3)]}))).
    reflexivity.
  - apply (proj1 (proj2 (proj2 (proj2 (page_param_at_least_one
                                   {["page" := PyStr "two"]})))) "two").
    + reflexivity.
    + reflexivity.
  - apply (proj2 (proj2 (proj2 (proj2 (page_param_at_least_one
             {["page" := PyFloat (S754_infinity false)]})))) OverflowError).
    split; [reflexivity | now exists false].
Defined.

(** *** [get_job_links] *)

Section JobLinksFacts.
Import JobLinks.

Variable literal_eval : string -> parsed.

Lemma collect_links_flat_map (jobProviders : list string)
  (job_links_df : list (string * string)) :
  collect_links literal_eval jobProviders job_links_df =
  if existsb (uncaught literal_eval) jobProviders then Raise TypeError
  else Ok (job_links_df ++ flat_map (links_of literal_eval) jobProviders)%list.
Proof.
  revert job_links_df.
  induction jobProviders as [|i rest IH]; intros job_links_df.
  - cbn. now rewrite app_nil_r.
  - cbn [collect_links existsb flat_map]. unfold uncaught at 1, links_of at 1.
    destruct (literal_eval i) as [li| |]; cbn [orb].
    + rewrite IH. now rewrite <- app_assoc.
    + rewrite IH. reflexivity.
    + reflexivity.
Qed.

Lemma flat_map_links_length (jobProviders : list string) :
  (length (flat_map (links_of literal_eval) jobProviders)
   <= 2 * length (List.filter (readable literal_eval) jobProviders))%nat.
Proof.
  induction jobProviders as [|i rest IH]; [cbn; lia|].
  cbn [flat_map List.filter]. rewrite length_app.
  unfold links_of at 1, readable at 1.
  destruct (literal_eval i) as [li| |]; cbn [length].
  - rewrite length_take. lia.
  - lia.
  - lia.
Qed.

(** [get_job_links] lets an exception through exactly when some field
    raises one that is neither [ValueError] nor [SyntaxError]. Otherwise
    it returns, in the order of the column, the first two pairs of every
    field that can be read: fields that cannot be read leave no trace, and
    there are at most two links for each readable field. *)
Theorem get_job_links_result (jobProviders : list string) :
  (existsb (uncaught literal_eval) jobProviders = true ->
   get_job_links literal_eval (Some jobProviders) = Raise TypeError) /\
  (existsb (uncaught literal_eval) jobProviders = false ->
   exists links,
     get_job_links literal_eval (Some jobProviders) = Ok links /\
     links = flat_map (links_of literal_eval) jobProviders /\
     get_job_links literal_eval
       (Some (List.filter (readable literal_eval) jobProviders)) = Ok links /\
     (length links
      <= 2 * length (List.filter (readable literal_eval) jobProviders))%nat).
Proof.
  unfold get_job_links. split; intros H.
  - now rewrite collect_links_flat_map, H.
  - exists (flat_map (links_of literal_eval) jobProviders).
    rewrite !collect_links_flat_map, H. cbn [app].
    repeat split.
    + assert (Hf : existsb (uncaught literal_eval)
                     (List.filter (readable literal_eval) jobProviders) = false).
      { apply not_true_is_false. intros E.
        apply existsb_exists in E as (i & Hi & Hu).
        apply filter_In in Hi as [_ Hr].
        unfold uncaught in Hu. unfold readable in Hr.
        destruct (literal_eval i); discriminate. }
      rewrite Hf. f_equal. clear H Hf.
      induction jobProviders as [|i rest IH]; [reflexivity|].
      cbn [flat_map List.filter]. unfold readable at 1, links_of at 2.
      destruct (literal_eval i) as [li| |] eqn:E.
      * cbn [flat_map]. unfold links_of at 1. rewrite E. now rewrite IH.
      * exact IH.
      * exact IH.
    + apply flat_map_links_length.
Qed.

(** [JobLinksView.post] hands [get_job_links] a frame whose only column is
    [id], so for every list of job ids the answer is 200 with no link. *)
Theorem JobLinksView_post_no_links (job_ids : list string) :
  JobLinksView_post literal_eval (JobIds job_ids) = Response200 [].
Proof. reflexivity. Qed.

End JobLinksFacts.

Lemma get_job_links_result_witness :
  JobLinks.get_job_links JobLinks.demo_literal_eval
    (Some ["[('a', 'https://a'), ('b', 'https://b'), ('c', 'https://c')]";
           "5"])
  = Raise TypeError.
Proof.
  apply (proj1 (get_job_links_result JobLinks.demo_literal_eval
                  ["[('a', 'https://a'), ('b', 'https://b'), ('c', 'https://c')]";
                   "5"])).
  reflexivity.
Defined.

(** *** [load_job_listings] *)

Section LoaderFacts.
Import Loader SkillExtractor.

Variable order : hash_order.

Lemma fill_rows_ok (rows : list RawRow) (i : nat) :
  List.Forall (fun row => raw_description row <> None) rows ->
  exists listings,
    fill_rows None order i rows = Ok listings /\
    map Ranker.id listings = map raw_id rows /\
    map Ranker.index listings = seq i (length rows) /\
    List.Forall filled listings.
Proof.
  revert i. induction rows as [|row rows IH]; intros i Hall.
  - exists []. repeat split. constructor.
  - apply List.Forall_cons_iff in Hall as [Hrow Hall].
    destruct (IH (S i) Hall) as (listings & E & Hid & Hix & Hf).
    cbn [fill_rows]. unfold filled_row.
    destruct (raw_description row) as [description|]; [|contradiction].
    cbn [bind]. rewrite E. cbn [bind].
    eexists. split; [reflexivity|].
    cbn [map Ranker.id Ranker.index length seq]. rewrite Hid, Hix.
    repeat split. constructor; [|exact Hf].
    unfold filled. cbn [Ranker.Skills].
    rewrite split_extract_skills_fallback.
    split; [apply fallback_skills_nonempty | apply fallback_skills_in_vocabulary].
Qed.

Lemma fill_rows_raise (rows : list RawRow) (i : nat) (nlp : option (string -> result (list string))) :
  List.Exists (fun row => raw_description row = None) rows ->
  exists e, fill_rows nlp order i rows = Raise e.
Proof.
  revert i. induction rows as [|row rows IH]; intros i Hex.
  - inversion Hex.
  - cbn [fill_rows]. unfold filled_row.
    destruct (raw_description row) as [description|] eqn:E.
    + apply List.Exists_cons in Hex as [Hrow | Hex]; [congruence|].
      destruct (IH (S i) Hex) as (e & ->). cbn [bind]. now exists e.
    + cbn [bind]. now eexists.
Qed.

(** For a file without [Skills] column, read with the vocabulary scan:
    when every row has a description, the listings keep the rows in order
    and each gets a skills string that splits at ", " into a non-empty
    list of vocabulary entries; when the [description] column or one
    description is missing, the result is the empty frame. *)
Theorem load_job_listings_fills_skills (frame : RawFrame) :
  has_Skills frame = false ->
  let listings := load_job_listings None order (Ok frame) in
  (has_description frame = true ->
   List.Forall (fun row => raw_description row <> None) (raw_rows frame) ->
   map Ranker.id listings = map raw_id (raw_rows frame) /\
   map Ranker.index listings = seq 0 (length (raw_rows frame)) /\
   List.Forall
     (fun job =>
        split ", " (Ranker.Skills job) <> [] /\
        List.Forall (fun s => In s COMMON_TECH_SKILLS)
                    (split ", " (Ranker.Skills job))) listings) /\
  (has_description frame = false \/
   List.Exists (fun row => raw_description row = None) (raw_rows frame) ->
   listings = []).
Proof.
  intros HS listings. subst listings.
  unfold load_job_listings, load_frame. cbn [bind]. rewrite HS. split.
  - intros -> Hall.
    destruct (fill_rows_ok (raw_rows frame) 0 Hall) as (l & -> & Hid & Hix & Hf).
    auto.
  - intros [-> | Hex]; [reflexivity|].
    destruct (has_description frame); [|reflexivity].
    now destruct (fill_rows_raise (raw_rows frame) 0 None Hex) as (e & ->).
Qed.

End LoaderFacts.

Lemma load_job_listings_fills_skills_witness :
  let frame :=
    Loader.mkRawFrame false true
      [Loader.mkRawRow "7" "Engineer" (Some "We use Django") ""] in
  let listings := Loader.load_job_listings None insertion_order (Ok frame) in
  map Ranker.id listings = ["7"] /\
  map Ranker.index listings = [0%nat] /\
  List.Forall
    (fun job =>
       split ", " (Ranker.Skills job) <> [] /\
       List.Forall (fun s => In s SkillExtractor.COMMON_TECH_SKILLS)
                   (split ", " (Ranker.Skills job))) listings.
Proof.
  intros frame.
  apply (proj1 (load_job_listings_fills_skills insertion_order frame eq_refl)).
  - reflexivity.
  - repeat constructor. discriminate.
Defined.

(** *** [ExtractSkillsView.post] *)







Section ExtractViewFacts.
Import ExtractSkillsView SkillExtractor.

Variable nlp : option (string -> result (list string)).
Variable order : hash_order.
Variable extract_pdf_text : string -> result string.
Variable media_path : string -> string.



End ExtractViewFacts.


(** *** [RecommendedJobsView.post] *)

Section JobsViewFacts.
Import JobsView Ranker.

Lemma recommended_jobs_ok_nonempty (user_skills : string)
  (job_listings sorted : list Job) :
  recommended_jobs user_skills job_listings (Ok sorted) -> sorted <> [].
Proof.
  intros H E. subst sorted.
  pose proof (recommended_jobs_ok_inv _ _ _ H) as [Hp _].
  apply Permutation_sym, Permutation_nil, map_eq_nil in Hp. subst job_listings.
  inversion H as [|scores sorted' Hs _]; subst.
  rewrite similarity_scores_undefined in Hs by now left. discriminate.
Qed.

Lemma missing_field_without_score (l : Listings) :
  SkillGap.member "Similarity_Score" (columns l) = false ->
  missing_field (record_keys l) <> None.
Proof.
  intros Hcol Hnone. unfold missing_field in Hnone.
  destruct (List.find _ JobSerializer_fields) as [f|] eqn:E; [discriminate|].
  pose proof (find_none _ _ E ("Similarity_Score", true)) as H.
  cbn [fst snd andb] in H.
  assert (Hin : In ("Similarity_Score", true) JobSerializer_fields)
    by (do 6 right; now left).
  specialize (H Hin). apply negb_false_iff, member_In in H.
  unfold record_keys in H. apply in_app_or in H as [H | [H | []]].
  - apply member_In in H. congruence.
  - discriminate.
Qed.

(** The ranked frame names its score column [Similarity Score], while the
    serializer requires a field [Similarity_Score]. So unless the listings
    file itself has a column of that name, the handler never answers 200:
    it answers 400 without a [skills] entry and 500 otherwise. This holds
    in particular when the file is missing and the handler writes its
    sample. *)
Theorem RecommendedJobsView_post_never_ok (skills : option pyval)
  (file : option (result Listings)) :
  (forall l, listings_of file = Ok l ->
             SkillGap.member "Similarity_Score" (columns l) = false) ->
  (exists resp, post skills file resp) /\
  (forall resp, post skills file resp ->
     resp = match skills with
            | None => Response400
            | Some _ => Response500
            end).
Proof.
  intros Hcol. split.
  - destruct skills as [v|]; [|exists Response400; now apply post_no_skills].
    exists Response500.
    destruct (listings_of file) as [l|e] eqn:El;
      [|now apply (post_unreadable _ _ v e)].
    destruct (SkillGap.member "Skills" (columns l)) eqn:ES;
      [|now apply (post_no_Skills_column _ _ v l)].
    destruct (is_text v) eqn:Ev; [|now apply (post_not_text _ _ v l)].
    destruct v as [| | | |user_skills|]; try discriminate.
    destruct (recommended_jobs_total user_skills (rows l)) as ([sorted|e] & Hr).
    + destruct (missing_field (record_keys l)) as [field|] eqn:Em.
      * apply (post_serializer_raises _ _ user_skills l sorted field);
          [reflexivity | exact El | exact ES | exact Hr | | exact Em].
        exact (recommended_jobs_ok_nonempty _ _ _ Hr).
      * exfalso. now apply (missing_field_without_score l (Hcol l eq_refl)).
    + now apply (post_ranking_raises _ _ user_skills l e).
  - intros resp H.
    destruct H as [Hs | u e Hs | u l Hs | u l Hs | u l e Hs | u l sorted field Hs
                  | u l sorted Hs El ES Hr Hok];
      try (rewrite Hs; reflexivity).
    exfalso. destruct Hok as [-> | Hnone].
    + now apply (recommended_jobs_ok_nonempty _ _ _ Hr).
    + now apply (missing_field_without_score l (Hcol l El)).
Qed.

End JobsViewFacts.

Lemma RecommendedJobsView_post_never_ok_witness :
  (exists resp, JobsView.post (Some (PyStr "python")) None resp) /\
  (forall resp, JobsView.post (Some (PyStr "python")) None resp ->
                resp = JobsView.Response500).
Proof.
  apply (RecommendedJobsView_post_never_ok (Some (PyStr "python")) None).
  intros l [= <-]. reflexivity.
Defined.

